(** * The UDP to WebRTC bridge: relay server (server/server.js)

    A shallow embedding of the server side of the bridge: datagram
    ingestion and the bounded packet buffer, the two fixed-window rate
    gates, the broadcaster / viewer registry, the directed signalling relay
    and the disconnect cleanup, followed by the properties of the design
    document that concern them.

    Conventions of the embedding.
    - JavaScript numbers that hold counts, indices and clock readings are
      integers [Z]; a datagram is a [list byte].
    - A [Map] is a [gmap]; a [Set] of socket ids is the list of its members
      in insertion order without repetition (the order in which [for ... of]
      visits them).
    - The module-level variables of server.js form the record [ServerState];
      a handler is a computation in the monad [M], which threads that state
      and collects the socket.io messages the handler emits.
    - Handlers run to completion; the clock reading [now] of one run is a
      parameter of the handler.  Console logging is not modelled. *)

From Stdlib Require Import ZArith List Lia.
From Stdlib.Strings Require Import Byte.
From stdpp Require Import base option list gmap strings.

Local Open Scope Z_scope.

(** ** Data model *)

(** An element of [videoBuffer]: [{ id, data, timestamp, size }]. *)
Record Packet := mkPacket {
  id : string;
  data : list byte;
  timestamp : Z;
  size : Z
}.

(** An element of the [chunks] array of a 'video-data' reply; [data] is the
    base64 text of the packet's bytes. *)
Record Chunk := mkChunk {
  chunk_id : string;
  chunk_data : string;
  chunk_timestamp : Z;
  chunk_size : Z
}.

(** The values of [socketRoles]: [{ role, streamId }]. *)
Inductive RoleKind := broadcaster | viewer.

Record SocketRole := mkRole {
  role : RoleKind;
  streamId : string
}.

(** The values of [clientRequests] and [socketRateLimits]:
    [{ count, timestamp }], [timestamp] being the start of the window. *)
Record RateWindow := mkWindow {
  count : Z;
  window_start : Z
}.

(** The part of [config] that the modelled code reads. *)
Record Config := mkConfig {
  maxBufferSize : Z;
  rateLimitInterval : Z;
  rateLimitMaxRequests : Z
}.

(** A JavaScript value as far as the relay looks at one: the body of a
    signalling message is an object whose fields the server copies without
    interpreting them.  [VOther] stands for any value that is neither a
    number nor a string (an SDP or ICE object, say), by its JSON text. *)
Inductive Value :=
| VNum (n : Z)
| VStr (s : string)
| VOther (json : string).

(** A received datagram: the bytes [msg], the sender's [rinfo] and the
    clock reading of the handler run that receives it. *)
Record Datagram := mkDatagram {
  msg : list byte;
  address : string;
  port : Z;
  received : Z
}.

(** The outcome of the HTTP middleware: the request goes on ([next()]) or
    is answered 429. *)
Inductive HttpOutcome := next | too_many_requests.

(** The argument of 'request-video-data'; a field the client left out is
    [None] ([undefined]). *)
Record RequestInfo := mkRequest {
  startIndex : option Z;
  chunkSize : option Z
}.

(** The body of a 'video-data' message.  [reply_dataRate] is absent in the
    reply sent for an empty buffer. *)
Record VideoData := mkVideoData {
  chunks : list Chunk;
  nextIndex : Z;
  hasMore : bool;
  reply_timestamp : Z;
  reply_dataRate : option Z
}.

(** Messages the server sends, by event name. *)
Inductive Payload :=
| udp_data (time sz : Z) (senderAddress : string) (senderPort : Z)
    (dataRate : Z)
| video_data (reply : VideoData)
| webrtc_signal (body : gmap string Value)
| viewer_signal (body : gmap string Value)
| broadcaster_signal (body : gmap string Value)
| stream_available (stream : string) (time : Z)
| stream_ended (stream : string) (time : Z) (reason : option string)
| stream_unavailable (stream : string) (time : Z)
| broadcaster_viewer_connected (viewerId : string) (time : Z)
| broadcaster_viewer_disconnected (viewerId : string) (time : Z)
    (reason : option string).

(** Who receives a message: [io.emit], [socket.broadcast.emit] (everyone
    but the sender) or the [emit] of one socket. *)
Inductive Target :=
| ToAll
| ToAllExcept (sender : string)
| ToSocket (socketId : string).

Record Emit := mkEmit {
  target : Target;
  payload : Payload
}.

(** The module-level state of server.js.  [sockets] stands for the keys of
    [io.sockets.sockets], the connections that are live. *)
Record ServerState := mkState {
  videoBuffer : list Packet;
  bytesReceivedLastSecond : Z;
  lastDataRateUpdate : Z;
  currentDataRate : Z;
  clientRequests : gmap string RateWindow;
  socketRateLimits : gmap string RateWindow;
  broadcasters : gmap string string;
  viewers : gmap string (list string);
  socketRoles : gmap string SocketRole;
  sockets : gset string
}.

(** The state at process start; [t0] is the clock reading that initialises
    [lastDataRateUpdate]. *)
Definition initial_state (t0 : Z) (live : gset string) : ServerState :=
  mkState [] 0 t0 0 ∅ ∅ ∅ ∅ ∅ live.

Definition set_videoBuffer (f : list Packet → list Packet) (s : ServerState) :=
  mkState (f (videoBuffer s)) (bytesReceivedLastSecond s)
    (lastDataRateUpdate s) (currentDataRate s) (clientRequests s)
    (socketRateLimits s) (broadcasters s) (viewers s) (socketRoles s)
    (sockets s).

Definition set_bytesReceivedLastSecond (f : Z → Z) (s : ServerState) :=
  mkState (videoBuffer s) (f (bytesReceivedLastSecond s))
    (lastDataRateUpdate s) (currentDataRate s) (clientRequests s)
    (socketRateLimits s) (broadcasters s) (viewers s) (socketRoles s)
    (sockets s).

Definition set_lastDataRateUpdate (f : Z → Z) (s : ServerState) :=
  mkState (videoBuffer s) (bytesReceivedLastSecond s)
    (f (lastDataRateUpdate s)) (currentDataRate s) (clientRequests s)
    (socketRateLimits s) (broadcasters s) (viewers s) (socketRoles s)
    (sockets s).

Definition set_currentDataRate (f : Z → Z) (s : ServerState) :=
  mkState (videoBuffer s) (bytesReceivedLastSecond s)
    (lastDataRateUpdate s) (f (currentDataRate s)) (clientRequests s)
    (socketRateLimits s) (broadcasters s) (viewers s) (socketRoles s)
    (sockets s).

Definition set_clientRequests
    (f : gmap string RateWindow → gmap string RateWindow) (s : ServerState) :=
  mkState (videoBuffer s) (bytesReceivedLastSecond s)
    (lastDataRateUpdate s) (currentDataRate s) (f (clientRequests s))
    (socketRateLimits s) (broadcasters s) (viewers s) (socketRoles s)
    (sockets s).

Definition set_socketRateLimits
    (f : gmap string RateWindow → gmap string RateWindow) (s : ServerState) :=
  mkState (videoBuffer s) (bytesReceivedLastSecond s)
    (lastDataRateUpdate s) (currentDataRate s) (clientRequests s)
    (f (socketRateLimits s)) (broadcasters s) (viewers s) (socketRoles s)
    (sockets s).

Definition set_broadcasters
    (f : gmap string string → gmap string string) (s : ServerState) :=
  mkState (videoBuffer s) (bytesReceivedLastSecond s)
    (lastDataRateUpdate s) (currentDataRate s) (clientRequests s)
    (socketRateLimits s) (f (broadcasters s)) (viewers s) (socketRoles s)
    (sockets s).

Definition set_viewers
    (f : gmap string (list string) → gmap string (list string))
    (s : ServerState) :=
  mkState (videoBuffer s) (bytesReceivedLastSecond s)
    (lastDataRateUpdate s) (currentDataRate s) (clientRequests s)
    (socketRateLimits s) (broadcasters s) (f (viewers s)) (socketRoles s)
    (sockets s).

Definition set_socketRoles
    (f : gmap string SocketRole → gmap string SocketRole) (s : ServerState) :=
  mkState (videoBuffer s) (bytesReceivedLastSecond s)
    (lastDataRateUpdate s) (currentDataRate s) (clientRequests s)
    (socketRateLimits s) (broadcasters s) (viewers s) (f (socketRoles s))
    (sockets s).

(** ** The handler monad: state of the server and emitted messages *)

Record Result (A : Type) := mkResult {
  value : A;
  state : ServerState;
  emitted : list Emit
}.
Arguments mkResult {A} _ _ _.
Arguments value {A} _.
Arguments state {A} _.
Arguments emitted {A} _.

Definition M (A : Type) : Type := ServerState → Result A.

Definition ret {A} (a : A) : M A := λ s, mkResult a s [].

Definition bind {A B} (m : M A) (k : A → M B) : M B := λ s,
  let r1 := m s in
  let r2 := k (value r1) (state r1) in
  mkResult (value r2) (state r2) (emitted r1 ++ emitted r2).

Definition get : M ServerState := λ s, mkResult s s [].

Definition modify (f : ServerState → ServerState) : M unit :=
  λ s, mkResult tt (f s) [].

Definition emit (to : Target) (p : Payload) : M unit :=
  λ s, mkResult tt s [mkEmit to p].

(** stdpp's monad notations [x ← m; k] and [m ;; k] for [M]. *)
#[global] Instance M_ret : MRet M := @ret.
#[global] Instance M_bind : MBind M := λ A B k m, bind m k.

(** [for (const x of xs) body(x)]. *)
Fixpoint for_of {A} (xs : list A) (body : A → M unit) : M unit :=
  match xs with
  | [] => ret tt
  | x :: rest => body x ;; for_of rest body
  end.

(** Runs the handler [h] once per input, in order. *)
Fixpoint run_each {A} (h : A → M unit) (inputs : list A) : M unit :=
  match inputs with
  | [] => ret tt
  | x :: rest => h x ;; run_each h rest
  end.

(** ** JavaScript helpers *)

(** [o || d] for a number that may be missing: [undefined] and [0] are both
    falsy and give the default. *)
Definition or_default (o : option Z) (d : Z) : Z :=
  match o with
  | Some 0 => d
  | Some n => n
  | None => d
  end.

(** [Array.prototype.slice(start, end)]: a negative bound counts from the
    end of the array, both bounds are clamped to [0 .. length], and an end
    before the start gives the empty array. *)
Definition js_slice {A} (l : list A) (start stop : Z) : list A :=
  let len := Z.of_nat (length l) in
  let k := if start <? 0 then Z.max (len + start) 0 else Z.min start len in
  let final := if stop <? 0 then Z.max (len + stop) 0 else Z.min stop len in
  take (Z.to_nat (final - k)) (drop (Z.to_nat k) l).

(** [Set.prototype.add] and [Set.prototype.delete] on the insertion-ordered
    member list. *)
Definition set_add (x : string) (l : list string) : list string :=
  if decide (x ∈ l) then l else l ++ [x].

Definition set_delete (x : string) (l : list string) : list string :=
  filter (λ y, y ≠ x) l.

(** ** The server *)

Section Server.

(** The configuration read at start-up, and the two library functions the
    server applies to packet bytes:
    [createHash('md5').update(msg).digest('hex').substring(0, 8)] and
    [buffer.toString('base64')]. *)
Context (config : Config).
Context (md5_hex8 : list byte → string).
Context (base64 : list byte → string).

Definition MAX_BUFFER_SIZE : Z := maxBufferSize config.

(** *** Datagram ingestion and the packet buffer *)

(** [videoBuffer.reduce((total, packet) => total + packet.data.length, 0)] *)
Definition buffered_bytes (buf : list Packet) : Z :=
  foldl (λ total packet, total + Z.of_nat (length (data packet))) 0 buf.

(** [while (videoBuffer.length > 0 && buffered_bytes > MAX_BUFFER_SIZE)
      videoBuffer.shift();] *)
Fixpoint evict_oldest (buf : list Packet) : list Packet :=
  match buf with
  | [] => []
  | _ :: rest =>
      if buffered_bytes buf >? MAX_BUFFER_SIZE then evict_oldest rest
      else buf
  end.

(** [udpServer.on('message', (msg, rinfo) => ...)] *)
Definition on_udp_message (d : Datagram) : M unit :=
  let now := received d in
  let packetId := md5_hex8 (msg d) in
  modify (set_videoBuffer (λ buf,
    buf ++ [mkPacket packetId (msg d) now (Z.of_nat (length (msg d)))])) ;;
  modify (set_bytesReceivedLastSecond (λ b, b + Z.of_nat (length (msg d)))) ;;
  modify (set_videoBuffer evict_oldest) ;;
  s ← get;
  (if now - lastDataRateUpdate s >=? 1000 then
     modify (set_currentDataRate (λ _, bytesReceivedLastSecond s)) ;;
     modify (set_bytesReceivedLastSecond (λ _, 0)) ;;
     modify (set_lastDataRateUpdate (λ _, now))
   else mret tt) ;;
  s ← get;
  emit ToAll
    (udp_data now (Z.of_nat (length (msg d))) (address d) (port d)
       (currentDataRate s)).

(** *** The fixed-window rate gates *)

(** [app.use((req, res, next) => ...)], the per-address request gate;
    [ip] is [req.ip]. *)
Definition rate_limit_middleware (ip : string) (now : Z) : M HttpOutcome :=
  s ← get;
  match clientRequests s !! ip with
  | None =>
      modify (set_clientRequests <[ip := mkWindow 1 now]>) ;;
      mret next
  | Some client =>
      if now - window_start client >? rateLimitInterval config then
        modify (set_clientRequests <[ip := mkWindow 1 now]>) ;;
        mret next
      else if count client >=? rateLimitMaxRequests config then
        mret too_many_requests
      else
        modify (set_clientRequests
                  <[ip := mkWindow (count client + 1) (window_start client)]>) ;;
        mret next
  end.

(** [rateLimitSocketEvent(socket, limit)]: [true] when the event is over
    the limit and must be dropped. *)
Definition rateLimitSocketEvent (socket : string) (limit now : Z) : M bool :=
  s ← get;
  match socketRateLimits s !! socket with
  | None =>
      modify (set_socketRateLimits <[socket := mkWindow 1 now]>) ;;
      mret false
  | Some rateLimit =>
      if now - window_start rateLimit >? 1000 then
        modify (set_socketRateLimits <[socket := mkWindow 1 now]>) ;;
        mret false
      else if count rateLimit >=? limit then
        mret true
      else
        modify (set_socketRateLimits
                  <[socket := mkWindow (count rateLimit + 1)
                                (window_start rateLimit)]>) ;;
        mret false
  end.

(** The first statement of every socket event handler:
    [if (rateLimitSocketEvent(socket, limit)) return;] then the rest. *)
Definition gated (socket : string) (limit now : Z) (rest : M unit) : M unit :=
  limited ← rateLimitSocketEvent socket limit now;
  if limited : bool then mret tt else rest.

(** *** The data window: 'request-video-data' *)

Definition encode_chunk (packet : Packet) : Chunk :=
  mkChunk (id packet) (base64 (data packet)) (timestamp packet) (size packet).

(** The 'video-data' message built for a request, from the buffer and the
    current data rate. *)
Definition video_data_reply (buf : list Packet) (rate now : Z)
    (requestInfo : RequestInfo) : VideoData :=
  let start_index := or_default (startIndex requestInfo) 0 in
  let chunk_size := Z.min (or_default (chunkSize requestInfo) 10) 20 in
  let len := Z.of_nat (length buf) in
  if len =? 0 then mkVideoData [] 0 false now None
  else
    let validStartIndex := Z.min start_index (len - 1) in
    let dataToSend :=
      js_slice buf validStartIndex (Z.min (validStartIndex + chunk_size) len) in
    let encodedChunks := encode_chunk <$> dataToSend in
    mkVideoData encodedChunks
      (validStartIndex + Z.of_nat (length dataToSend))
      (validStartIndex + Z.of_nat (length dataToSend) <? len)
      now (Some rate).

Definition request_video_data (socket : string) (now : Z)
    (requestInfo : RequestInfo) : M unit :=
  s ← get;
  emit (ToSocket socket)
    (video_data
       (video_data_reply (videoBuffer s) (currentDataRate s) now requestInfo)).

Definition on_request_video_data (socket : string) (now : Z)
    (requestInfo : RequestInfo) : M unit :=
  gated socket 5 now (request_video_data socket now requestInfo).

(** *** The registry of broadcasters and viewers *)

(** [const s = io.sockets.sockets.get(socketId); if (s) s.emit(...)] *)
Definition emit_if_connected (socketId : string) (p : Payload) : M unit :=
  s ← get;
  if decide (socketId ∈ sockets s) then emit (ToSocket socketId) p
  else mret tt.

(** 'register-broadcaster', after the gate. *)
Definition register_broadcaster (socket : string) (now : Z)
    (streamId : string) : M unit :=
  modify (set_broadcasters <[streamId := socket]>) ;;
  s ← get;
  match viewers s !! streamId with
  | None => modify (set_viewers <[streamId := []]>)
  | Some _ => mret tt
  end ;;
  modify (set_socketRoles <[socket := mkRole broadcaster streamId]>) ;;
  emit (ToAllExcept socket) (stream_available streamId now).

Definition on_register_broadcaster (socket : string) (now : Z)
    (streamId : string) : M unit :=
  gated socket 5 now (register_broadcaster socket now streamId).

(** The block shared by 'unregister-broadcaster' and 'disconnect':
    [if (broadcasters.has(streamId) &&
         broadcasters.get(streamId) === socket.id) { ... }];
    the two copies differ in the [reason] field of 'stream-ended'. *)
Definition end_stream (socket : string) (now : Z) (streamId : string)
    (reason : option string) : M unit :=
  s ← get;
  if decide (broadcasters s !! streamId = Some socket) then
    modify (set_broadcasters (delete streamId)) ;;
    match viewers s !! streamId with
    | Some streamViewers =>
        for_of streamViewers (λ viewerId,
          emit_if_connected viewerId (stream_ended streamId now reason)) ;;
        modify (set_viewers (delete streamId))
    | None => mret tt
    end
  else mret tt.

(** 'unregister-broadcaster', after the gate. *)
Definition unregister_broadcaster (socket : string) (now : Z)
    (streamId : string) : M unit :=
  end_stream socket now streamId None ;;
  modify (set_socketRoles (delete socket)).

Definition on_unregister_broadcaster (socket : string) (now : Z)
    (streamId : string) : M unit :=
  gated socket 5 now (unregister_broadcaster socket now streamId).

(** 'register-viewer', after the gate. *)
Definition register_viewer (socket : string) (now : Z)
    (streamId : string) : M unit :=
  s ← get;
  match broadcasters s !! streamId with
  | None => emit (ToSocket socket) (stream_unavailable streamId now)
  | Some broadcasterId =>
      match viewers s !! streamId with
      | None => modify (set_viewers <[streamId := []]>)
      | Some _ => mret tt
      end ;;
      modify (set_viewers (alter (set_add socket) streamId)) ;;
      modify (set_socketRoles <[socket := mkRole viewer streamId]>) ;;
      emit_if_connected broadcasterId
        (broadcaster_viewer_connected socket now)
  end.

Definition on_register_viewer (socket : string) (now : Z)
    (streamId : string) : M unit :=
  gated socket 5 now (register_viewer socket now streamId).

(** The block shared by 'unregister-viewer' and 'disconnect':
    [if (viewers.has(streamId)) { ... }]. *)
Definition leave_stream (socket : string) (now : Z) (streamId : string)
    (reason : option string) : M unit :=
  s ← get;
  match viewers s !! streamId with
  | Some _ =>
      modify (set_viewers (alter (set_delete socket) streamId)) ;;
      match broadcasters s !! streamId with
      | Some broadcasterId =>
          emit_if_connected broadcasterId
            (broadcaster_viewer_disconnected socket now reason)
      | None => mret tt
      end
  | None => mret tt
  end.

(** 'unregister-viewer', after the gate. *)
Definition unregister_viewer (socket : string) (now : Z)
    (streamId : string) : M unit :=
  leave_stream socket now streamId None ;;
  modify (set_socketRoles (delete socket)).

Definition on_unregister_viewer (socket : string) (now : Z)
    (streamId : string) : M unit :=
  gated socket 5 now (unregister_viewer socket now streamId).

(** 'disconnect' (no gate). *)
Definition on_disconnect (socket : string) (now : Z) : M unit :=
  modify (set_socketRateLimits (delete socket)) ;;
  s ← get;
  match socketRoles s !! socket with
  | Some (mkRole role streamId) =>
      match role with
      | broadcaster =>
          end_stream socket now streamId (Some "broadcaster-disconnected"%string)
      | viewer =>
          leave_stream socket now streamId (Some "viewer-disconnected"%string)
      end ;;
      modify (set_socketRoles (delete socket))
  | None => mret tt
  end.

(** *** The signalling relay *)

(** [{ ...data, [field]: socket.id, timestamp: Date.now() }] *)
Definition augment (data : gmap string Value) (field : string)
    (socket : string) (now : Z) : gmap string Value :=
  <["timestamp"%string := VNum now]> (<[field := VStr socket]> data).

(** 'webrtc-signal', after the gate: broadcast to the other clients. *)
Definition webrtc_signal_relay (socket : string) (now : Z)
    (data : gmap string Value) : M unit :=
  emit (ToAllExcept socket) (webrtc_signal (augment data "senderId" socket now)).

(** [io.sockets.sockets.get(id)] for the value found in a message: only a
    string can name a socket. *)
Definition relay_to (targetId : option Value) (p : Payload) : M unit :=
  match targetId with
  | Some (VStr socketId) => emit_if_connected socketId p
  | _ => mret tt
  end.

(** 'broadcaster-signal', after the gate: forwarded to [data.viewerId]. *)
Definition broadcaster_signal_relay (socket : string) (now : Z)
    (data : gmap string Value) : M unit :=
  relay_to (data !! "viewerId"%string)
    (viewer_signal (augment data "broadcasterId" socket now)).

(** 'viewer-signal', after the gate: forwarded to [data.broadcasterId]. *)
Definition viewer_signal_relay (socket : string) (now : Z)
    (data : gmap string Value) : M unit :=
  relay_to (data !! "broadcasterId"%string)
    (broadcaster_signal (augment data "viewerId" socket now)).

Definition on_webrtc_signal (socket : string) (now : Z)
    (data : gmap string Value) : M unit :=
  gated socket 30 now (webrtc_signal_relay socket now data).

Definition on_broadcaster_signal (socket : string) (now : Z)
    (data : gmap string Value) : M unit :=
  gated socket 30 now (broadcaster_signal_relay socket now data).

Definition on_viewer_signal (socket : string) (now : Z)
    (data : gmap string Value) : M unit :=
  gated socket 30 now (viewer_signal_relay socket now data).

(** *** Notions used to state the properties *)

(** The sum of the [size] fields of the held packets. *)
Definition total_size (buf : list Packet) : Z :=
  foldr (λ packet total, size packet + total) 0 buf.

(** Every held packet records the length of its bytes as its [size]. *)
Definition sizes_recorded (buf : list Packet) : Prop :=
  Forall (λ packet, size packet = Z.of_nat (length (data packet))) buf.

(** The packet that 'message' appends for a datagram. *)
Definition packet_of (d : Datagram) : Packet :=
  mkPacket (md5_hex8 (msg d)) (msg d) (received d) (Z.of_nat (length (msg d))).

(** Runs [h] once per input, in order, and collects what it returns. *)
Fixpoint decisions {A B} (h : A → M B) (inputs : list A) : M (list B) :=
  match inputs with
  | [] => mret []
  | x :: rest => b ← h x; bs ← decisions h rest; mret (b :: bs)
  end.

(** The fixed-window algorithm as the design document words it, on one
    subject's window: "store (windowStart, count); on each check, if
    now - windowStart > intervalLength, reset to (now, 1) and allow; else
    if count >= limit, deny; else increment and allow".  A subject without
    a window gets [(now, 1)] and is allowed.  The boolean is [true] for
    "deny". *)
Definition fixed_window (interval limit now : Z) (w : option RateWindow)
    : bool * option RateWindow :=
  match w with
  | None => (false, Some (mkWindow 1 now))
  | Some w =>
      if now - window_start w >? interval then (false, Some (mkWindow 1 now))
      else if count w >=? limit then (true, Some w)
      else (false, Some (mkWindow (count w + 1) (window_start w)))
  end.

Fixpoint fixed_window_run (interval limit : Z) (times : list Z)
    (w : option RateWindow) : list bool * option RateWindow :=
  match times with
  | [] => ([], w)
  | now :: rest =>
      let '(denied, w1) := fixed_window interval limit now w in
      let '(ds, w2) := fixed_window_run interval limit rest w1 in
      (denied :: ds, w2)
  end.

(** The rate-window property for the socket event gate with limit
    [limit]: a socket without a window sends [limit + 1] events, all
    within the interval of the first; the first [limit] pass, the last
    one is dropped; an event later than the interval after the first
    passes again and leaves the window [(count 1, start tnext)]. *)
Definition socket_gate_window_reset (socket : string) (limit : Z) : Prop :=
  ∀ (s : ServerState) (t0 : Z) (ts : list Z) (tnext : Z),
    socketRateLimits s !! socket = None →
    Z.of_nat (length (t0 :: ts)) = limit + 1 →
    Forall (λ t, t - t0 ≤ 1000) ts →
    1000 < tnext - t0 →
    let r := decisions (rateLimitSocketEvent socket limit) (t0 :: ts) s in
    let r' := rateLimitSocketEvent socket limit tnext (state r) in
    value r = replicate (Z.to_nat limit) false ++ [true]
    ∧ value r' = false
    ∧ socketRateLimits (state r') !! socket = Some (mkWindow 1 tnext).

(** The same for the HTTP request gate, whose limit and interval are
    [config.rateLimitMaxRequests] and [config.rateLimitInterval]. *)
Definition http_gate_window_reset (ip : string) : Prop :=
  ∀ (s : ServerState) (t0 : Z) (ts : list Z) (tnext : Z),
    clientRequests s !! ip = None →
    Z.of_nat (length (t0 :: ts)) = rateLimitMaxRequests config + 1 →
    Forall (λ t, t - t0 ≤ rateLimitInterval config) ts →
    rateLimitInterval config < tnext - t0 →
    let r := decisions (rate_limit_middleware ip) (t0 :: ts) s in
    let r' := rate_limit_middleware ip tnext (state r) in
    value r = replicate (Z.to_nat (rateLimitMaxRequests config)) next
              ++ [too_many_requests]
    ∧ value r' = next
    ∧ clientRequests (state r') !! ip = Some (mkWindow 1 tnext).

(** [clamp(x, lo, hi)] of the design document. *)
Definition clamp (x lo hi : Z) : Z := Z.max lo (Z.min x hi).

(** [reply] carries a contiguous, order-preserving slice of [buf] that
    starts at [clamp(start, 0, length - 1)] and has at most [limit]
    chunks. *)
Definition window_of (buf : list Packet) (start limit : Z)
    (reply : VideoData) : Prop :=
  chunks reply
  = encode_chunk
      <$> take (length (chunks reply))
            (drop (Z.to_nat (clamp start 0 (Z.of_nat (length buf) - 1))) buf)
  ∧ Z.of_nat (length (chunks reply)) ≤ limit.

(** One 'register-broadcaster' event that passed the gate: the socket
    that sent it, the clock reading and the stream it names. *)
Record Registration := mkRegistration {
  reg_socket : string;
  reg_time : Z;
  reg_stream : string
}.

Definition register_call (c : Registration) : M unit :=
  register_broadcaster (reg_socket c) (reg_time c) (reg_stream c).

(** The socket of the most recent registration for [streamId] among
    [calls]; [before] when there is none. *)
Definition last_source (streamId : string) (calls : list Registration)
    (before : option string) : option string :=
  foldl (λ source c,
           if decide (reg_stream c = streamId) then Some (reg_socket c)
           else source)
    before calls.

(** The target field of a directed signalling message names a socket
    that is connected. *)
Definition names_live_socket (targetId : option Value) (s : ServerState)
    : Prop :=
  ∃ socketId, targetId = Some (VStr socketId) ∧ socketId ∈ sockets s.

(** *** Sample inputs for the concrete runs *)

(** A configuration with a 5-byte buffer ceiling, a one-second interval and
    two requests per interval, and stand-ins for the digest and the base64
    encoder; the runs below do not depend on what the stand-ins return. *)
Definition small_config : Config := mkConfig 5 1000 2.
Definition constant_digest (_ : list byte) : string := "00000000".
Definition constant_base64 (_ : list byte) : string := "".

(** A buffer of three one-byte packets. *)
Definition three_packets : list Packet :=
  [mkPacket "aaaaaaaa" [x01] 10 1; mkPacket "bbbbbbbb" [x02] 20 1;
   mkPacket "cccccccc" [x03] 30 1].

(** Stream "s1" registered by socket "c1" and then again by socket "c2". *)
Definition superseded_source : ServerState :=
  state (run_each register_call
           [mkRegistration "c1" 10 "s1"; mkRegistration "c2" 20 "s1"]
           (initial_state 0 {["c1"; "c2"]})).

(** Stream "s1" registered by socket "c1" and watched by socket "c2". *)
Definition one_viewer : ServerState :=
  state ((register_broadcaster "c1" 10 "s1" ;; register_viewer "c2" 20 "s1")
           (initial_state 0 {["c1"; "c2"]})).

(** The bytes carried by a sequence of datagrams. *)
Definition datagram_bytes (datagrams : list Datagram) : Z :=
  foldr (λ d total, Z.of_nat (length (msg d)) + total) 0 datagrams.




(** What a connected client can send on its socket: the events the
    'connection' handler subscribes to, with their arguments. *)
Inductive SocketEvent :=
| request_video_data_event (requestInfo : RequestInfo)
| webrtc_signal_event (data : gmap string Value)
| register_broadcaster_event (streamId : string)
| unregister_broadcaster_event (streamId : string)
| register_viewer_event (streamId : string)
| unregister_viewer_event (streamId : string)
| broadcaster_signal_event (data : gmap string Value)
| viewer_signal_event (data : gmap string Value).

(** The [socket.on(...)] handler that runs for an event. *)
Definition on_socket_event (socket : string) (now : Z) (e : SocketEvent)
    : M unit :=
  match e with
  | request_video_data_event requestInfo =>
      on_request_video_data socket now requestInfo
  | webrtc_signal_event data => on_webrtc_signal socket now data
  | register_broadcaster_event streamId =>
      on_register_broadcaster socket now streamId
  | unregister_broadcaster_event streamId =>
      on_unregister_broadcaster socket now streamId
  | register_viewer_event streamId => on_register_viewer socket now streamId
  | unregister_viewer_event streamId =>
      on_unregister_viewer socket now streamId
  | broadcaster_signal_event data => on_broadcaster_signal socket now data
  | viewer_signal_event data => on_viewer_signal socket now data
  end.

(** The limit a handler passes to [rateLimitSocketEvent], and the rest of
    the handler behind that check. *)
Definition event_limit (e : SocketEvent) : Z :=
  match e with
  | webrtc_signal_event _ | broadcaster_signal_event _ | viewer_signal_event _
      => 30
  | _ => 5
  end.

Definition event_body (socket : string) (now : Z) (e : SocketEvent) : M unit :=
  match e with
  | request_video_data_event requestInfo =>
      request_video_data socket now requestInfo
  | webrtc_signal_event data => webrtc_signal_relay socket now data
  | register_broadcaster_event streamId =>
      register_broadcaster socket now streamId
  | unregister_broadcaster_event streamId =>
      unregister_broadcaster socket now streamId
  | register_viewer_event streamId => register_viewer socket now streamId
  | unregister_viewer_event streamId => unregister_viewer socket now streamId
  | broadcaster_signal_event data => broadcaster_signal_relay socket now data
  | viewer_signal_event data => viewer_signal_relay socket now data
  end.

Definition set_sockets (f : gset string → gset string) (s : ServerState) :=
  mkState (videoBuffer s) (bytesReceivedLastSecond s)
    (lastDataRateUpdate s) (currentDataRate s) (clientRequests s)
    (socketRateLimits s) (broadcasters s) (viewers s) (socketRoles s)
    (f (sockets s)).

(** Everything that makes the server run a handler: a datagram, an HTTP
    request passing the rate middleware, an event on a socket, the
    disconnection of a socket.  [connections_change] stands for socket.io
    adding sockets to and removing them from [io.sockets.sockets]; the
    server code has no handler for it. *)
Inductive Event :=
| datagram_arrives (d : Datagram)
| http_request (ip : string) (now : Z)
| socket_sends (socket : string) (now : Z) (e : SocketEvent)
| socket_disconnects (socket : string) (now : Z)
| connections_change (live : gset string).

Definition handle (e : Event) : M unit :=
  match e with
  | datagram_arrives d => on_udp_message d
  | http_request ip now => rate_limit_middleware ip now ;; mret tt
  | socket_sends socket now e => on_socket_event socket now e
  | socket_disconnects socket now => on_disconnect socket now
  | connections_change live => modify (set_sockets (λ _, live))
  end.

(** The counters of every rate window are at least 1 and at most the
    largest limit that applies to the table. *)
Definition windows_within (limit : Z) (table : gmap string RateWindow) : Prop :=
  map_Forall (λ _ w, 1 ≤ count w ≤ limit) table.

(** Three two-byte packets, six bytes in all. *)
Definition two_byte_packets : list Packet :=
  [mkPacket "aaaaaaaa" [x01; x02] 10 2; mkPacket "bbbbbbbb" [x03; x04] 20 2;
   mkPacket "cccccccc" [x05; x06] 30 2].

(** Socket "c1" has sent five events since the clock read 0. *)
Definition busy_socket : ServerState :=
  set_socketRateLimits <["c1" := mkWindow 5 0]> (initial_state 0 {["c1"]}).

(** Stream "s1" registered by socket "c1", nobody watching. *)
Definition one_stream : ServerState :=
  state (register_broadcaster "c1" 10 "s1" (initial_state 0 {["c1"; "c2"]})).

(** Streams "s1" of socket "c1" and "s2" of socket "c2". *)
Definition two_streams : ServerState :=
  state ((register_broadcaster "c1" 10 "s1" ;;
          register_broadcaster "c2" 20 "s2")
           (initial_state 0 {["c1"; "c2"; "c3"]})).

(** A signalling message for socket "c2" that claims to come from
    "forged". *)
Definition offer_to_c2 : gmap string Value :=
  {["viewerId" := VStr "c2"; "broadcasterId" := VStr "c2";
    "senderId" := VStr "forged"; "type" := VStr "offer"]}.

(** [limit] events that straddle the end of a window: one at [t0], the
    others a full interval later, followed by [limit] events one
    millisecond after those. *)
Definition boundary_burst (interval limit t0 : Z) : list Z :=
  t0 :: replicate (Z.to_nat (limit - 1)) (t0 + interval)
  ++ replicate (Z.to_nat limit) (t0 + interval + 1).

(** ** Properties *)

(** Unfolds a handler down to the state it returns. *)
Ltac run_handler :=
  repeat (unfold mbind, mret, M_bind, M_ret, bind, ret, get, modify, emit;
          cbn [value state emitted fst snd app
               videoBuffer bytesReceivedLastSecond lastDataRateUpdate
               currentDataRate clientRequests socketRateLimits broadcasters
               viewers socketRoles sockets
               set_videoBuffer set_bytesReceivedLastSecond
               set_lastDataRateUpdate set_currentDataRate
               set_clientRequests set_socketRateLimits set_broadcasters
               set_viewers set_socketRoles]).

(** *** The packet buffer *)

Lemma foldl_bytes_shift (buf : list Packet) (a : Z) :
  foldl (λ total packet, total + Z.of_nat (length (data packet))) a buf
  = a + buffered_bytes buf.
Proof.
  unfold buffered_bytes. revert a.
  induction buf as [|p buf IH]; intros a; cbn [foldl]; [lia|].
  rewrite (IH (a + _)), (IH (0 + _)). lia.
Qed.

Lemma buffered_bytes_cons (p : Packet) (buf : list Packet) :
  buffered_bytes (p :: buf)
  = Z.of_nat (length (data p)) + buffered_bytes buf.
Proof.
  unfold buffered_bytes at 1. cbn [foldl]. rewrite foldl_bytes_shift. lia.
Qed.

Lemma buffered_bytes_nonneg (buf : list Packet) : 0 ≤ buffered_bytes buf.
Proof.
  induction buf as [|p buf IH]; [done|]. rewrite buffered_bytes_cons. lia.
Qed.

Lemma buffered_bytes_app (buf1 buf2 : list Packet) :
  buffered_bytes (buf1 ++ buf2) = buffered_bytes buf1 + buffered_bytes buf2.
Proof.
  induction buf1 as [|p buf1 IH]; cbn [app]; [done|].
  rewrite !buffered_bytes_cons, IH. lia.
Qed.

Lemma total_size_bytes (buf : list Packet) :
  sizes_recorded buf → total_size buf = buffered_bytes buf.
Proof.
  induction 1 as [|p buf Hp _ IH]; [done|].
  rewrite buffered_bytes_cons. cbn [total_size foldr].
  fold (total_size buf). lia.
Qed.

(** The eviction loop stops with the byte total within the ceiling. *)
Lemma evict_oldest_bound (buf : list Packet) :
  0 ≤ MAX_BUFFER_SIZE → buffered_bytes (evict_oldest buf) ≤ MAX_BUFFER_SIZE.
Proof.
  intros Hmax. induction buf as [|p buf IH]; [done|].
  cbn [evict_oldest].
  destruct (Z.gtb_spec (buffered_bytes (p :: buf)) MAX_BUFFER_SIZE); [done|lia].
Qed.

(** It only removes packets from the front. *)
Lemma evict_oldest_suffix (buf : list Packet) : evict_oldest buf `suffix_of` buf.
Proof.
  induction buf as [|p buf IH]; [done|]. cbn [evict_oldest].
  destruct (_ >? _); [by apply suffix_cons_r|done].
Qed.

Lemma evict_oldest_sizes (buf : list Packet) :
  sizes_recorded buf → sizes_recorded (evict_oldest buf).
Proof.
  intros H. destruct (evict_oldest_suffix buf) as [k Hk].
  unfold sizes_recorded in *. rewrite Hk in H. by apply Forall_app in H as [_ H].
Qed.

(** A packet larger than the ceiling is evicted together with everything
    that was there before it. *)
Lemma evict_oldest_oversized (buf : list Packet) (p : Packet) :
  MAX_BUFFER_SIZE < Z.of_nat (length (data p)) →
  evict_oldest (buf ++ [p]) = [].
Proof.
  intros Hbig. induction buf as [|q buf IH]; cbn [app evict_oldest].
  - rewrite buffered_bytes_cons.
    destruct (Z.gtb_spec (Z.of_nat (length (data p)) + buffered_bytes [])
                MAX_BUFFER_SIZE) as [|Hle]; [done|].
    unfold buffered_bytes in Hle. cbn in Hle. lia.
  - rewrite buffered_bytes_cons, buffered_bytes_app, buffered_bytes_cons.
    pose proof (buffered_bytes_nonneg buf).
    match goal with
    | |- context [?a >? ?b] => destruct (Z.gtb_spec a b) as [|Hle]; [done|]
    end.
    unfold buffered_bytes at 2 in Hle. cbn in Hle. lia.
Qed.

Lemma on_udp_message_buffer (d : Datagram) (s : ServerState) :
  videoBuffer (state (on_udp_message d s))
  = evict_oldest (videoBuffer s ++ [packet_of d]).
Proof.
  unfold on_udp_message. run_handler.
  destruct (_ >=? _); run_handler; reflexivity.
Qed.

Lemma run_each_snoc {A} (h : A → M unit) (inputs : list A) (x : A)
    (s : ServerState) :
  state (run_each h (inputs ++ [x]) s) = state (h x (state (run_each h inputs s))).
Proof.
  revert s. induction inputs as [|y inputs IH]; intros s; cbn [app run_each].
  - run_handler. reflexivity.
  - run_handler. apply IH.
Qed.

Lemma ingestion_sizes_recorded (datagrams : list Datagram) (s : ServerState) :
  sizes_recorded (videoBuffer s) →
  sizes_recorded (videoBuffer (state (run_each on_udp_message datagrams s))).
Proof.
  revert s. induction datagrams as [|d ds IH]; intros s Hs; [done|].
  cbn [run_each]. run_handler. apply IH.
  rewrite on_udp_message_buffer. apply evict_oldest_sizes.
  apply Forall_app; split; [done|]. by repeat constructor.
Qed.


(** C1 (amended).  With a ceiling that is not negative, after every
    sequence of datagrams handled from the start of the process the sizes
    of the held packets sum to at most [MAX_BUFFER_SIZE]; and a datagram
    larger than the ceiling is not kept: handling it leaves the buffer
    empty.  The handler is a total function: it raises nothing. *)
Theorem packet_buffer_bound (datagrams : list Datagram) (t0 : Z)
    (live : gset string) :
  0 ≤ MAX_BUFFER_SIZE →
  let s := state (run_each on_udp_message datagrams (initial_state t0 live)) in
  total_size (videoBuffer s) ≤ MAX_BUFFER_SIZE
  ∧ ∀ d : Datagram,
      MAX_BUFFER_SIZE < Z.of_nat (length (msg d)) →
      videoBuffer (state (on_udp_message d s)) = [].
Proof.
  intros Hmax s. split.
  - subst s. destruct datagrams as [|d ds _] using rev_ind; [done|].
    rewrite run_each_snoc, on_udp_message_buffer.
    rewrite total_size_bytes; [by apply evict_oldest_bound|].
    apply evict_oldest_sizes, Forall_app; split.
    + apply ingestion_sizes_recorded. constructor.
    + by repeat constructor.
  - intros d Hbig. rewrite on_udp_message_buffer.
    by apply evict_oldest_oversized.
Qed.

(** *** The rate gates *)

Lemma rateLimitSocketEvent_refines (socket : string) (limit now : Z)
    (s : ServerState) :
  let r := rateLimitSocketEvent socket limit now s in
  let w := fixed_window 1000 limit now (socketRateLimits s !! socket) in
  value r = w.1 ∧ socketRateLimits (state r) !! socket = w.2
  ∧ emitted r = [].
Proof.
  unfold rateLimitSocketEvent, fixed_window. run_handler.
  destruct (socketRateLimits s !! socket) as [w|] eqn:Hw; run_handler.
  - destruct (_ >? _); run_handler; [by rewrite lookup_insert_eq|].
    destruct (_ >=? _); run_handler; [done|by rewrite lookup_insert_eq].
  - by rewrite lookup_insert_eq.
Qed.

Lemma rate_limit_middleware_refines (ip : string) (now : Z) (s : ServerState) :
  let r := rate_limit_middleware ip now s in
  let w := fixed_window (rateLimitInterval config)
             (rateLimitMaxRequests config) now (clientRequests s !! ip) in
  value r = (if w.1 then too_many_requests else next)
  ∧ clientRequests (state r) !! ip = w.2
  ∧ emitted r = [].
Proof.
  unfold rate_limit_middleware, fixed_window. run_handler.
  destruct (clientRequests s !! ip) as [w|] eqn:Hw; run_handler.
  - destruct (_ >? _); run_handler; [by rewrite lookup_insert_eq|].
    destruct (_ >=? _); run_handler; [done|by rewrite lookup_insert_eq].
  - by rewrite lookup_insert_eq.
Qed.

(** A gated handler either drops the event, changing the sender's window
    only, or runs the rest of the handler on the state the gate leaves. *)
Lemma gated_result (socket : string) (limit now : Z) (rest : M unit)
    (s : ServerState) :
  let g := rateLimitSocketEvent socket limit now s in
  gated socket limit now rest s
  = if value g then mkResult tt (state g) [] else rest (state g).
Proof.
  intros g. destruct (rateLimitSocketEvent_refines socket limit now s)
    as (_ & _ & Hquiet).
  fold g in Hquiet. unfold gated. run_handler. fold g. rewrite Hquiet.
  destruct (value g); [done|]. cbn [app]. by destruct (rest (state g)).
Qed.

Lemma socket_gate_run (socket : string) (limit : Z) (times : list Z)
    (s : ServerState) :
  let r := decisions (rateLimitSocketEvent socket limit) times s in
  let w := fixed_window_run 1000 limit times (socketRateLimits s !! socket) in
  value r = w.1 ∧ socketRateLimits (state r) !! socket = w.2.
Proof.
  revert s. induction times as [|now rest IH]; intros s; [done|].
  cbn [decisions fixed_window_run]. run_handler.
  destruct (rateLimitSocketEvent_refines socket limit now s) as (Hv & Hs & _).
  destruct (IH (state (rateLimitSocketEvent socket limit now s))) as [Hv' Hs'].
  rewrite Hs in Hv', Hs'. rewrite Hv, Hv', Hs'.
  destruct (fixed_window _ _ _ _) as [d w1]. cbn [fst snd].
  by destruct (fixed_window_run _ _ _ _).
Qed.

Lemma http_gate_run (ip : string) (times : list Z) (s : ServerState) :
  let r := decisions (rate_limit_middleware ip) times s in
  let w := fixed_window_run (rateLimitInterval config)
             (rateLimitMaxRequests config) times (clientRequests s !! ip) in
  value r = (λ d : bool, if d then too_many_requests else next) <$> w.1
  ∧ clientRequests (state r) !! ip = w.2.
Proof.
  revert s. induction times as [|now rest IH]; intros s; [done|].
  cbn [decisions fixed_window_run]. run_handler.
  destruct (rate_limit_middleware_refines ip now s) as (Hv & Hs & _).
  destruct (IH (state (rate_limit_middleware ip now s))) as [Hv' Hs'].
  rewrite Hs in Hv', Hs'. rewrite Hv, Hv', Hs'.
  destruct (fixed_window _ _ _ _) as [d w1]. cbn [fst snd].
  by destruct (fixed_window_run _ _ _ _).
Qed.

(** Inside one window the first [limit - count] events pass and all the
    later ones are denied. *)
Lemma fixed_window_run_within (interval limit t0 : Z) (ts : list Z) (c : Z) :
  Forall (λ t, t - t0 ≤ interval) ts →
  c ≤ limit →
  fixed_window_run interval limit ts (Some (mkWindow c t0))
  = (replicate (length ts `min` Z.to_nat (limit - c)) false
       ++ replicate (length ts - Z.to_nat (limit - c)) true,
     Some (mkWindow (c + Z.of_nat (length ts `min` Z.to_nat (limit - c))) t0)).
Proof.
  intros Hts. revert c. induction Hts as [|t ts Ht _ IH]; intros c Hc.
  - cbn. do 3 f_equal. lia.
  - cbn [fixed_window_run fixed_window window_start count length].
    destruct (Z.gtb_spec (t - t0) interval); [lia|].
    destruct (Z.geb_spec c limit).
    + rewrite (IH c Hc). replace (Z.to_nat (limit - c)) with 0%nat by lia.
      rewrite !Nat.min_0_r, !Nat.sub_0_r. reflexivity.
    + rewrite (IH (c + 1)) by lia.
      replace (Z.to_nat (limit - c)) with (S (Z.to_nat (limit - (c + 1)))) by lia.
      rewrite <- Nat.succ_min_distr, Nat.sub_succ. cbn [replicate app].
      do 3 f_equal. lia.
Qed.

Lemma fixed_window_run_reset (interval limit t0 : Z) (ts : list Z) (tnext : Z) :
  1 ≤ limit →
  Z.of_nat (length (t0 :: ts)) = limit + 1 →
  Forall (λ t, t - t0 ≤ interval) ts →
  interval < tnext - t0 →
  let w := fixed_window_run interval limit (t0 :: ts) None in
  w.1 = replicate (Z.to_nat limit) false ++ [true]
  ∧ fixed_window interval limit tnext w.2 = (false, Some (mkWindow 1 tnext)).
Proof.
  intros Hlimit Hlen Hts Hnext. cbn [length] in Hlen.
  cbn [fixed_window_run fixed_window].
  rewrite (fixed_window_run_within interval limit t0 ts 1 Hts Hlimit).
  replace (length ts) with (S (Z.to_nat (limit - 1))) by lia.
  replace (Z.to_nat limit) with (S (Z.to_nat (limit - 1))) by lia.
  cbn [fst snd]. split.
  - replace (S (Z.to_nat (limit - 1)) `min` Z.to_nat (limit - 1))%nat
      with (Z.to_nat (limit - 1)) by lia.
    replace (S (Z.to_nat (limit - 1)) - Z.to_nat (limit - 1))%nat
      with 1%nat by lia.
    reflexivity.
  - cbn [fixed_window window_start].
    by destruct (Z.gtb_spec (tnext - t0) interval); [|lia].
Qed.

(** C4 (amended).  For a limit of at least 1, both fixed-window gates let
    the first [limit] events of a subject without window state pass, deny
    event [limit + 1] when all of them fall within the interval of the
    first, and let the subject pass again once more than the interval has
    elapsed since the window start, resetting the window to count 1 with
    the new start. *)
Theorem rate_window_reset (limit : Z) :
  1 ≤ limit →
  (∀ socket, socket_gate_window_reset socket limit)
  ∧ (rateLimitMaxRequests config = limit → ∀ ip, http_gate_window_reset ip).
Proof.
  intros Hlimit. split.
  - intros socket s t0 ts tnext Hnone Hlen Hts Hnext r r'.
    destruct (socket_gate_run socket limit (t0 :: ts) s) as [Hv Hs].
    destruct (rateLimitSocketEvent_refines socket limit tnext (state r))
      as (Hv' & Hs' & _).
    fold r in Hv, Hs. fold r' in Hv', Hs'. rewrite Hnone in Hv, Hs.
    destruct (fixed_window_run_reset 1000 limit t0 ts tnext) as [Hd Hw]; try done.
    rewrite Hs, Hw in Hv', Hs'. by rewrite Hv, Hd, Hv', Hs'.
  - intros <- ip s t0 ts tnext Hnone Hlen Hts Hnext r r'.
    destruct (http_gate_run ip (t0 :: ts) s) as [Hv Hs].
    destruct (rate_limit_middleware_refines ip tnext (state r))
      as (Hv' & Hs' & _).
    fold r in Hv, Hs. fold r' in Hv', Hs'. rewrite Hnone in Hv, Hs.
    destruct (fixed_window_run_reset (rateLimitInterval config)
                (rateLimitMaxRequests config) t0 ts tnext) as [Hd Hw]; try done.
    rewrite Hs, Hw in Hv', Hs'. rewrite Hv, Hd, Hv', Hs'.
    by rewrite fmap_app, fmap_replicate.
Qed.


(** *** The data window *)

Lemma take_length_take {A} (n : nat) (l : list A) :
  take (length (take n l)) l = take n l.
Proof.
  rewrite length_take. destruct (Nat.min_spec n (length l)) as [[_ ->]|[H ->]];
    [done|]. by rewrite firstn_all, take_ge.
Qed.

Lemma js_slice_from {A} (l : list A) (start stop : Z) :
  0 ≤ start ≤ Z.of_nat (length l) →
  js_slice l start stop
  = take (Z.to_nat ((if stop <? 0 then Z.max (Z.of_nat (length l) + stop) 0
                     else Z.min stop (Z.of_nat (length l))) - start))
      (drop (Z.to_nat start) l).
Proof.
  intros H. unfold js_slice.
  destruct (Z.ltb_spec start 0); [lia|]. by rewrite (Z.min_l start) by lia.
Qed.

(** What the reply is for a buffer that is not empty and a start index
    that is not negative. *)
Lemma video_data_reply_from (buf : list Packet) (rate now : Z)
    (requestInfo : RequestInfo) :
  buf ≠ [] →
  0 ≤ or_default (startIndex requestInfo) 0 →
  let len := Z.of_nat (length buf) in
  let start := clamp (or_default (startIndex requestInfo) 0) 0 (len - 1) in
  let chunk_size := Z.min (or_default (chunkSize requestInfo) 10) 20 in
  let stop := Z.min (start + chunk_size) len in
  let dataToSend :=
    take (Z.to_nat ((if stop <? 0 then Z.max (len + stop) 0
                     else Z.min stop len) - start))
      (drop (Z.to_nat start) buf) in
  0 ≤ start < len
  ∧ video_data_reply buf rate now requestInfo
    = mkVideoData (encode_chunk <$> dataToSend)
        (start + Z.of_nat (length dataToSend))
        (start + Z.of_nat (length dataToSend) <? len) now (Some rate).
Proof.
  intros Hbuf Hstart len start chunk_size stop dataToSend.
  assert (0 < len) by (subst len; destruct buf; [done|cbn; lia]).
  assert (Hclamp : start = Z.min (or_default (startIndex requestInfo) 0) (len - 1))
    by (subst start; unfold clamp; lia).
  split; [lia|]. unfold video_data_reply. fold len.
  destruct (Z.eqb_spec len 0); [lia|].
  rewrite <- Hclamp. unfold dataToSend, stop, chunk_size.
  rewrite js_slice_from by (fold len; lia). reflexivity.
Qed.

(** C9.  On a buffer that is not empty, for a start index that is not
    negative (or left out) and any chunk size, the reply's [nextIndex] is
    the clamped start index plus the number of chunks, the chunks are the
    encoded buffer entries at the indices from the clamped start index up
    to [nextIndex - 1], and [hasMore] holds exactly when [nextIndex] is
    below the buffer length. *)
Theorem data_window_reply (buf : list Packet) (rate now : Z)
    (requestInfo : RequestInfo) :
  buf ≠ [] →
  0 ≤ or_default (startIndex requestInfo) 0 →
  let reply := video_data_reply buf rate now requestInfo in
  let len := Z.of_nat (length buf) in
  let start := clamp (or_default (startIndex requestInfo) 0) 0 (len - 1) in
  nextIndex reply = start + Z.of_nat (length (chunks reply))
  ∧ nextIndex reply ≤ len
  ∧ chunks reply
    = encode_chunk
        <$> take (Z.to_nat (nextIndex reply - start))
              (drop (Z.to_nat start) buf)
  ∧ (hasMore reply = true ↔ nextIndex reply < len).
Proof.
  intros Hbuf Hstart reply len start.
  destruct (video_data_reply_from buf rate now requestInfo Hbuf Hstart)
    as [Hrange Hreply].
  fold len start in Hrange, Hreply. subst reply. rewrite Hreply.
  cbn [nextIndex chunks hasMore]. rewrite length_fmap.
  match goal with |- context [take ?n (drop ?k buf)] =>
    set (dataToSend := take n (drop k buf)) end.
  split; [done|]. split; [|split].
  - subst dataToSend. rewrite length_take, length_drop. lia.
  - replace (Z.to_nat (start + Z.of_nat (length dataToSend) - start))
      with (length dataToSend) by lia.
    subst dataToSend. by rewrite take_length_take.
  - apply Z.ltb_lt.
Qed.

(** The handler answers every request with exactly one 'video-data'
    message to the requesting socket and leaves the state as it is. *)
Lemma request_video_data_result (socket : string) (now : Z)
    (requestInfo : RequestInfo) (s : ServerState) :
  request_video_data socket now requestInfo s
  = mkResult tt s
      [mkEmit (ToSocket socket)
         (video_data
            (video_data_reply (videoBuffer s) (currentDataRate s) now
               requestInfo))].
Proof. reflexivity. Qed.

(** C3 (amended).  Every request is answered, with one 'video-data'
    message; none is rejected.  The reply for an empty buffer has no chunks
    and [hasMore = false].  On a buffer that is not empty, for a start index
    that is not negative (or left out) and a chunk size that is not
    negative (or left out), the chunks are a contiguous, order-preserving
    slice of the buffer that starts at [clamp(startIndex, 0, length - 1)]
    and has at most [min(chunkSize || 10, 20)] entries: a chunk size of 0
    counts as left out and stands for 10.  A start index past the end is
    clamped. *)
Theorem data_window (socket : string) (now : Z) (requestInfo : RequestInfo)
    (s : ServerState) :
  0 ≤ or_default (startIndex requestInfo) 0 →
  0 ≤ or_default (chunkSize requestInfo) 10 →
  let buf := videoBuffer s in
  let reply := video_data_reply buf (currentDataRate s) now requestInfo in
  request_video_data socket now requestInfo s
  = mkResult tt s [mkEmit (ToSocket socket) (video_data reply)]
  ∧ (buf = [] → chunks reply = [] ∧ hasMore reply = false)
  ∧ (buf ≠ [] →
     window_of buf (or_default (startIndex requestInfo) 0)
       (Z.min (or_default (chunkSize requestInfo) 10) 20) reply).
Proof.
  intros Hstart Hsize buf reply.
  split; [apply request_video_data_result|]. split.
  - subst reply. by intros ->.
  - intros Hbuf.
    destruct (video_data_reply_from buf (currentDataRate s) now requestInfo
                Hbuf Hstart) as [Hrange Hreply].
    subst reply. rewrite Hreply. unfold window_of. cbn [chunks].
    rewrite length_fmap, take_length_take. split; [done|].
    rewrite length_take, length_drop.
    set (len := Z.of_nat (length buf)) in *.
    set (start := clamp _ 0 (len - 1)) in *.
    destruct (Z.ltb_spec (Z.min (start + Z.min
      (or_default (chunkSize requestInfo) 10) 20) len) 0); lia.
Qed.


(** *** The registry *)

Lemma register_broadcaster_result (socket : string) (now : Z)
    (streamId : string) (s : ServerState) :
  let r := register_broadcaster socket now streamId s in
  broadcasters (state r) = <[streamId := socket]> (broadcasters s)
  ∧ viewers (state r)
    = match viewers s !! streamId with
      | None => <[streamId := []]> (viewers s)
      | Some _ => viewers s
      end
  ∧ socketRoles (state r)
    = <[socket := mkRole broadcaster streamId]> (socketRoles s)
  ∧ emitted r = [mkEmit (ToAllExcept socket) (stream_available streamId now)].
Proof.
  unfold register_broadcaster. run_handler.
  destruct (viewers s !! streamId); run_handler; done.
Qed.

(** C2.  After any sequence of registrations, handled from any state, the
    source stored for a stream is the socket of the most recent
    registration for that stream (the earlier entry when the sequence has
    none for it); and a single registration always stores its socket,
    whatever was stored before: it overwrites and is never refused. *)
Theorem single_source (streamId : string) :
  (∀ (calls : list Registration) (s : ServerState),
     broadcasters (state (run_each register_call calls s)) !! streamId
     = last_source streamId calls (broadcasters s !! streamId))
  ∧ (∀ (socket : string) (now : Z) (s : ServerState),
       broadcasters (state (register_broadcaster socket now streamId s))
         !! streamId = Some socket).
Proof.
  split.
  - induction calls as [|c calls IH]; intros s; [done|].
    cbn [run_each]. run_handler. rewrite IH. unfold register_call.
    destruct (register_broadcaster_result (reg_socket c) (reg_time c)
                (reg_stream c) s) as (-> & _).
    unfold last_source. cbn [foldl]. rewrite lookup_insert.
    by repeat case_decide.
  - intros socket now s.
    destruct (register_broadcaster_result socket now streamId s) as (-> & _).
    by rewrite lookup_insert_eq.
Qed.

(** C10.  When a stream already has a viewer set, a registration for it
    leaves the whole [viewers] map as it was, and the only message it
    sends is the 'stream-available' broadcast: no viewer is added,
    removed or told that the stream ended. *)
Theorem register_keeps_viewers (socket : string) (now : Z)
    (streamId : string) (s : ServerState) :
  is_Some (viewers s !! streamId) →
  let r := register_broadcaster socket now streamId s in
  viewers (state r) = viewers s
  ∧ emitted r = [mkEmit (ToAllExcept socket) (stream_available streamId now)].
Proof.
  intros [followers Hset] r.
  destruct (register_broadcaster_result socket now streamId s)
    as (_ & Hv & _ & He).
  fold r in Hv, He. by rewrite Hv, He, Hset.
Qed.

Lemma emit_if_connected_state (socketId : string) (p : Payload)
    (s : ServerState) :
  state (emit_if_connected socketId p s) = s.
Proof. unfold emit_if_connected. run_handler. by case_decide. Qed.

Lemma for_of_state {A} (xs : list A) (body : A → M unit) (s : ServerState) :
  (∀ x s', state (body x s') = s') → state (for_of xs body s) = s.
Proof.
  intros Hbody. induction xs as [|x xs IH]; [done|].
  cbn [for_of]. run_handler. by rewrite Hbody.
Qed.

(** The stream-ending block touches [broadcasters] and [viewers] only. *)
Lemma end_stream_state (socket : string) (now : Z) (streamId : string)
    (reason : option string) (s : ServerState) :
  state (end_stream socket now streamId reason s)
  = if decide (broadcasters s !! streamId = Some socket)
    then set_viewers (delete streamId) (set_broadcasters (delete streamId) s)
    else s.
Proof.
  unfold end_stream. run_handler. case_decide; [|done]. run_handler.
  destruct (viewers s !! streamId) as [streamViewers|] eqn:Hv; run_handler.
  - rewrite for_of_state by (intros; apply emit_if_connected_state). done.
  - unfold set_viewers. cbn. by rewrite (delete_id (viewers s)).
Qed.

(** The viewer-leaving block touches [viewers] only. *)
Lemma leave_stream_state (socket : string) (now : Z) (streamId : string)
    (reason : option string) (s : ServerState) :
  state (leave_stream socket now streamId reason s)
  = set_viewers (alter (set_delete socket) streamId) s.
Proof.
  unfold leave_stream. run_handler.
  destruct (viewers s !! streamId) as [streamViewers|] eqn:Hv; run_handler.
  - destruct (broadcasters s !! streamId); run_handler; [|done].
    by rewrite emit_if_connected_state.
  - unfold set_viewers. rewrite alter_id' by done. by destruct s.
Qed.

Lemma on_disconnect_cleared (socket : string) (now : Z) (s : ServerState) :
  let r := on_disconnect socket now s in
  socketRoles (state r) !! socket = None
  ∧ socketRateLimits (state r) !! socket = None.
Proof.
  unfold on_disconnect. run_handler.
  destruct (socketRoles s !! socket) as [[[] streamId]|] eqn:Hrole;
    run_handler.
  - rewrite end_stream_state. rewrite lookup_delete_eq.
    split; [done|]. case_decide; cbn; by rewrite lookup_delete_eq.
  - rewrite leave_stream_state. cbn. by rewrite !lookup_delete_eq.
  - by rewrite lookup_delete_eq.
Qed.

Lemma on_disconnect_nothing_left (socket : string) (now : Z)
    (s : ServerState) :
  socketRoles s !! socket = None →
  socketRateLimits s !! socket = None →
  on_disconnect socket now s = mkResult tt s [].
Proof.
  intros Hrole Hrate. unfold on_disconnect. run_handler. rewrite Hrole.
  run_handler. unfold set_socketRateLimits.
  rewrite (delete_id (socketRateLimits s)) by done. by destruct s.
Qed.

(** C5.  Running the 'disconnect' cleanup a second time for the same
    socket changes nothing and sends nothing: the state after two runs is
    the state after one, in every table. *)
Theorem disconnect_idempotent (socket : string) (now now' : Z)
    (s : ServerState) :
  let once := on_disconnect socket now s in
  let twice := on_disconnect socket now' (state once) in
  state twice = state once ∧ emitted twice = [].
Proof.
  intros once twice.
  destruct (on_disconnect_cleared socket now s) as [Hrole Hrate].
  subst twice. fold once in Hrole, Hrate.
  by rewrite on_disconnect_nothing_left.
Qed.

(** C6 (amended).  An 'unregister-broadcaster' from a socket that is not
    the stored source of the stream leaves [broadcasters] and [viewers]
    (and every other table but one) unchanged and sends nothing; it
    deletes the [socketRoles] entry of the calling socket, and only
    that entry. *)
Theorem stale_unregister_broadcaster (socket : string) (now : Z)
    (streamId : string) (s : ServerState) :
  broadcasters s !! streamId ≠ Some socket →
  unregister_broadcaster socket now streamId s
  = mkResult tt (set_socketRoles (delete socket) s) [].
Proof.
  intros Hstale. unfold unregister_broadcaster, end_stream. run_handler.
  rewrite decide_False by done. reflexivity.
Qed.

Lemma set_delete_absent (x : string) (l : list string) :
  x ∉ l → set_delete x l = l.
Proof.
  unfold set_delete. induction l as [|y l IH]; [done|].
  intros [Hne Hl]%not_elem_of_cons.
  rewrite filter_cons_True by done. by rewrite IH.
Qed.

(** C7 (amended).  An 'unregister-viewer' from a socket that is not in
    the viewer set of the stream raises nothing and leaves every viewer
    set and the [broadcasters] map unchanged; it deletes the [socketRoles]
    entry of the calling socket, and only that entry. *)
Theorem unregister_viewer_absent (socket : string) (now : Z)
    (streamId : string) (s : ServerState) :
  (∀ streamViewers, viewers s !! streamId = Some streamViewers →
                    socket ∉ streamViewers) →
  state (unregister_viewer socket now streamId s)
  = set_socketRoles (delete socket) s.
Proof.
  intros Habsent. unfold unregister_viewer. run_handler.
  rewrite leave_stream_state. f_equal. unfold set_viewers.
  rewrite (alter_id _ (viewers s)); [by destruct s|].
  intros l Hl. by apply set_delete_absent, Habsent.
Qed.

(** *** The signalling relay *)

Lemma relay_to_result (targetId : option Value) (p : Payload)
    (s : ServerState) :
  (¬ names_live_socket targetId s → relay_to targetId p s = mkResult tt s [])
  ∧ (∀ socketId, targetId = Some (VStr socketId) → socketId ∈ sockets s →
       relay_to targetId p s = mkResult tt s [mkEmit (ToSocket socketId) p]).
Proof.
  unfold relay_to, names_live_socket, emit_if_connected. split.
  - intros Hdead. destruct targetId as [[| socketId |]|]; try done.
    run_handler. case_decide; [|done]. destruct Hdead. eauto.
  - intros socketId -> Hlive. run_handler. by rewrite decide_True.
Qed.

(** C8.  A 'broadcaster-signal' or 'viewer-signal' whose target field
    does not name a connected socket is dropped: the relay returns
    normally, sends nothing to anyone (so nothing to the sender either)
    and leaves the state as it was.  When the target is connected, the
    relay sends it exactly one message: the fields of the body, with the
    sender's socket id and the clock reading added. *)
Theorem directed_relay (socket : string) (now : Z)
    (data : gmap string Value) (s : ServerState) :
  (¬ names_live_socket (data !! "viewerId"%string) s →
     broadcaster_signal_relay socket now data s = mkResult tt s [])
  ∧ (¬ names_live_socket (data !! "broadcasterId"%string) s →
     viewer_signal_relay socket now data s = mkResult tt s [])
  ∧ (∀ viewerId,
       data !! "viewerId"%string = Some (VStr viewerId) →
       viewerId ∈ sockets s →
       broadcaster_signal_relay socket now data s
       = mkResult tt s
           [mkEmit (ToSocket viewerId)
              (viewer_signal
                 (<["timestamp"%string := VNum now]>
                    (<["broadcasterId"%string := VStr socket]> data)))])
  ∧ (∀ broadcasterId,
       data !! "broadcasterId"%string = Some (VStr broadcasterId) →
       broadcasterId ∈ sockets s →
       viewer_signal_relay socket now data s
       = mkResult tt s
           [mkEmit (ToSocket broadcasterId)
              (broadcaster_signal
                 (<["timestamp"%string := VNum now]>
                    (<["viewerId"%string := VStr socket]> data)))]).
Proof.
  unfold broadcaster_signal_relay, viewer_signal_relay, augment.
  repeat split; intros.
  - by apply relay_to_result.
  - by apply relay_to_result.
  - by apply relay_to_result.
  - by apply relay_to_result.
Qed.


(** *** More on ingestion and eviction *)

Lemma evict_oldest_fits (buf : list Packet) :
  buffered_bytes buf ≤ MAX_BUFFER_SIZE → evict_oldest buf = buf.
Proof.
  intros Hfits. destruct buf as [|p buf]; [done|]. cbn [evict_oldest].
  by destruct (Z.gtb_spec (buffered_bytes (p :: buf)) MAX_BUFFER_SIZE); [lia|].
Qed.

Lemma evict_oldest_keeps_last (buf : list Packet) (p : Packet) :
  Z.of_nat (length (data p)) ≤ MAX_BUFFER_SIZE →
  last (evict_oldest (buf ++ [p])) = Some p.
Proof.
  intros Hfits. induction buf as [|q buf IH].
  - cbn [app]. rewrite evict_oldest_fits; [done|].
    rewrite buffered_bytes_cons. unfold buffered_bytes. cbn. lia.
  - cbn [app evict_oldest]. destruct (_ >? _); [done|].
    by rewrite app_comm_cons, last_snoc.
Qed.

Lemma datagram_bytes_nonneg (datagrams : list Datagram) :
  0 ≤ datagram_bytes datagrams.
Proof. induction datagrams as [|d ds IH]; cbn; [done|]. fold (datagram_bytes ds). lia. Qed.

Lemma buffered_bytes_packet_of (d : Datagram) :
  buffered_bytes [packet_of d] = Z.of_nat (length (msg d)).
Proof. unfold buffered_bytes. cbn. lia. Qed.

(** X1.  Eviction never reorders or alters packets: after any sequence of
    datagrams, handled from any state, the buffer is a suffix of the old
    buffer followed by the packets of the datagrams in arrival order. *)
Theorem ingestion_keeps_arrival_order (datagrams : list Datagram)
    (s : ServerState) :
  videoBuffer (state (run_each on_udp_message datagrams s))
    `suffix_of` videoBuffer s ++ (packet_of <$> datagrams).
Proof.
  revert s. induction datagrams as [|d ds IH]; intros s.
  - cbn. by rewrite app_nil_r.
  - cbn [run_each]. run_handler.
    trans (videoBuffer (state (on_udp_message d s)) ++ (packet_of <$> ds));
      [apply IH|].
    rewrite on_udp_message_buffer, fmap_cons.
    replace (videoBuffer s ++ packet_of d :: (packet_of <$> ds))
      with ((videoBuffer s ++ [packet_of d]) ++ (packet_of <$> ds))
      by (by rewrite <- (assoc_L (++))).
    apply suffix_app, evict_oldest_suffix.
Qed.

(** X2.  The eviction loop removes no more than it must: it stops at the
    longest suffix of the buffer that is within the ceiling, so every
    longer suffix holds more bytes than [MAX_BUFFER_SIZE]. *)
Theorem eviction_is_minimal (buf kept : list Packet) :
  kept `suffix_of` buf →
  (length (evict_oldest buf) < length kept)%nat →
  MAX_BUFFER_SIZE < buffered_bytes kept.
Proof.
  induction buf as [|p buf IH]; intros Hsuffix Hlonger.
  - apply suffix_nil_inv in Hsuffix as ->. cbn in Hlonger. lia.
  - cbn [evict_oldest] in Hlonger.
    destruct (Z.gtb_spec (buffered_bytes (p :: buf)) MAX_BUFFER_SIZE) as [Hover|_].
    + destruct kept as [|q kept]; [cbn in Hlonger; lia|].
      apply suffix_cons_inv in Hsuffix as [->|Hsuffix]; [lia|by apply IH].
    + apply suffix_length in Hsuffix. lia.
Qed.

(** X3.  A datagram that fits under the ceiling on its own is in the
    buffer after it has been handled, as the newest (last) packet. *)
Theorem newest_packet_retained (d : Datagram) (s : ServerState) :
  Z.of_nat (length (msg d)) ≤ MAX_BUFFER_SIZE →
  last (videoBuffer (state (on_udp_message d s))) = Some (packet_of d).
Proof.
  intros Hfits. rewrite on_udp_message_buffer.
  by apply evict_oldest_keeps_last.
Qed.

(** X4.  While the held bytes and the arriving bytes together stay within
    the ceiling nothing is evicted: the buffer grows by one packet per
    datagram. *)
Theorem ingestion_without_eviction (datagrams : list Datagram)
    (s : ServerState) :
  buffered_bytes (videoBuffer s) + datagram_bytes datagrams ≤ MAX_BUFFER_SIZE →
  videoBuffer (state (run_each on_udp_message datagrams s))
  = videoBuffer s ++ (packet_of <$> datagrams).
Proof.
  revert s. induction datagrams as [|d ds IH]; intros s Hfits.
  - cbn. by rewrite app_nil_r.
  - cbn [datagram_bytes foldr] in Hfits. fold (datagram_bytes ds) in Hfits.
    pose proof (datagram_bytes_nonneg ds).
    assert (Hpush : videoBuffer (state (on_udp_message d s))
                    = videoBuffer s ++ [packet_of d]).
    { rewrite on_udp_message_buffer. apply evict_oldest_fits.
      rewrite buffered_bytes_app, buffered_bytes_packet_of. lia. }
    cbn [run_each]. run_handler. rewrite IH, Hpush.
    + by rewrite fmap_cons, <- (assoc_L (++)).
    + rewrite Hpush, buffered_bytes_app, buffered_bytes_packet_of. lia.
Qed.

Lemma length_le_buffered_bytes (buf : list Packet) :
  Forall (λ packet, data packet ≠ []) buf →
  Z.of_nat (length buf) ≤ buffered_bytes buf.
Proof.
  induction 1 as [|p buf Hp _ IH]; [done|].
  rewrite buffered_bytes_cons. destruct (data p); [done|]. cbn [length]. lia.
Qed.

Lemma ingestion_nonempty_packets (datagrams : list Datagram) (s : ServerState) :
  Forall (λ d, msg d ≠ []) datagrams →
  Forall (λ packet, data packet ≠ []) (videoBuffer s) →
  Forall (λ packet, data packet ≠ [])
    (videoBuffer (state (run_each on_udp_message datagrams s))).
Proof.
  intros Hds. revert s. induction Hds as [|d ds Hd _ IH]; intros s Hs; [done|].
  cbn [run_each]. run_handler. apply IH. rewrite on_udp_message_buffer.
  destruct (evict_oldest_suffix (videoBuffer s ++ [packet_of d])) as [k Hk].
  assert (Hall : Forall (λ packet, data packet ≠ [])
                   (videoBuffer s ++ [packet_of d]))
    by (apply Forall_app; split; [done|by repeat constructor]).
  rewrite Hk in Hall. by apply Forall_app in Hall as [_ Hall].
Qed.

Lemma ingestion_within_ceiling (datagrams : list Datagram) (s : ServerState) :
  0 ≤ MAX_BUFFER_SIZE →
  buffered_bytes (videoBuffer s) ≤ MAX_BUFFER_SIZE →
  buffered_bytes (videoBuffer (state (run_each on_udp_message datagrams s)))
  ≤ MAX_BUFFER_SIZE.
Proof.
  intros Hmax. revert s. induction datagrams as [|d ds IH]; intros s Hs; [done|].
  cbn [run_each]. run_handler. apply IH. rewrite on_udp_message_buffer.
  by apply evict_oldest_bound.
Qed.

(** X5.  When no datagram is empty, the byte ceiling also bounds the number
    of held packets: the buffer never holds more than [MAX_BUFFER_SIZE]
    packets. *)
Theorem packet_count_bound (datagrams : list Datagram) (t0 : Z)
    (live : gset string) :
  0 ≤ MAX_BUFFER_SIZE →
  Forall (λ d, msg d ≠ []) datagrams →
  Z.of_nat (length (videoBuffer (state (run_each on_udp_message datagrams
                                          (initial_state t0 live)))))
  ≤ MAX_BUFFER_SIZE.
Proof.
  intros Hmax Hds.
  etrans; [apply length_le_buffered_bytes|].
  - apply ingestion_nonempty_packets; [done|constructor].
  - by apply ingestion_within_ceiling.
Qed.

(** X6.  Empty datagrams escape the ceiling: they add no bytes, so once the
    buffer is within the ceiling a run of empty datagrams is appended whole,
    however long it is. *)
Theorem empty_datagrams_accumulate (datagrams : list Datagram)
    (s : ServerState) :
  buffered_bytes (videoBuffer s) ≤ MAX_BUFFER_SIZE →
  Forall (λ d, msg d = []) datagrams →
  length (videoBuffer (state (run_each on_udp_message datagrams s)))
  = (length (videoBuffer s) + length datagrams)%nat.
Proof.
  intros Hfits Hempty. revert s Hfits.
  induction Hempty as [|d ds Hd _ IH]; intros s Hfits; [cbn; lia|].
  assert (Hpush : videoBuffer (state (on_udp_message d s))
                  = videoBuffer s ++ [packet_of d]).
  { rewrite on_udp_message_buffer. apply evict_oldest_fits.
    rewrite buffered_bytes_app, buffered_bytes_packet_of, Hd. cbn. lia. }
  cbn [run_each]. run_handler. rewrite IH, Hpush.
  - rewrite length_app. cbn. lia.
  - rewrite Hpush, buffered_bytes_app, buffered_bytes_packet_of, Hd. cbn. lia.
Qed.

Lemma on_udp_message_rate (d : Datagram) (s : ServerState) :
  let s' := state (on_udp_message d s) in
  let total := bytesReceivedLastSecond s + Z.of_nat (length (msg d)) in
  if received d - lastDataRateUpdate s >=? 1000
  then currentDataRate s' = total ∧ bytesReceivedLastSecond s' = 0
       ∧ lastDataRateUpdate s' = received d
  else currentDataRate s' = currentDataRate s
       ∧ bytesReceivedLastSecond s' = total
       ∧ lastDataRateUpdate s' = lastDataRateUpdate s.
Proof.
  unfold on_udp_message. run_handler.
  destruct (_ >=? _); run_handler; done.
Qed.

(** X7.  The published data rate is the number of bytes received since
    the last update, the datagram that triggers the update included.  As
    long as datagrams arrive less than a second after the last update they
    only add to the byte counter; the first one that arrives a second or
    more after it publishes the counter as [currentDataRate], resets the
    counter and restarts the second, and its 'udp-data' broadcast carries
    the new rate. *)
Theorem data_rate_is_bytes_since_update (datagrams : list Datagram)
    (d : Datagram) (s : ServerState) :
  Forall (λ d', received d' - lastDataRateUpdate s < 1000) datagrams →
  1000 ≤ received d - lastDataRateUpdate s →
  let s1 := state (run_each on_udp_message datagrams s) in
  let r := on_udp_message d s1 in
  let total := bytesReceivedLastSecond s + datagram_bytes (datagrams ++ [d]) in
  (currentDataRate s1 = currentDataRate s
   ∧ lastDataRateUpdate s1 = lastDataRateUpdate s)
  ∧ currentDataRate (state r) = total
  ∧ bytesReceivedLastSecond (state r) = 0
  ∧ lastDataRateUpdate (state r) = received d
  ∧ emitted r
    = [mkEmit ToAll
         (udp_data (received d) (Z.of_nat (length (msg d))) (address d)
            (port d) total)].
Proof.
  intros Hwithin Hlate.
  assert (Hrun : ∀ s0,
    Forall (λ d', received d' - lastDataRateUpdate s0 < 1000) datagrams →
    let s1 := state (run_each on_udp_message datagrams s0) in
    currentDataRate s1 = currentDataRate s0
    ∧ lastDataRateUpdate s1 = lastDataRateUpdate s0
    ∧ bytesReceivedLastSecond s1
      = bytesReceivedLastSecond s0 + datagram_bytes datagrams).
  { clear. induction datagrams as [|d' ds IH]; intros s0 Hds.
    - cbn. repeat split; lia.
    - inversion_clear Hds as [|? ? Hd' Hds'].
      cbn [run_each]. run_handler.
      pose proof (on_udp_message_rate d' s0) as Hstep. cbn zeta in Hstep.
      destruct (Z.geb_spec (received d' - lastDataRateUpdate s0) 1000); [lia|].
      destruct Hstep as (Hrate & Hbytes & Hlast).
      destruct (IH (state (on_udp_message d' s0))) as (-> & -> & ->);
        [by rewrite Hlast|].
      cbn [datagram_bytes foldr]. fold (datagram_bytes ds).
      rewrite Hrate, Hbytes, Hlast. repeat split; lia. }
  intros s1 r total. destruct (Hrun s Hwithin) as (Hrate & Hlast & Hbytes).
  fold s1 in Hrate, Hlast, Hbytes. split; [done|].
  pose proof (on_udp_message_rate d s1) as Hstep. cbn zeta in Hstep.
  rewrite Hlast in Hstep.
  destruct (Z.geb_spec (received d - lastDataRateUpdate s) 1000) as [_|]; [|lia].
  destruct Hstep as (Hnew & Hzero & Hstart). fold r in Hnew, Hzero, Hstart.
  assert (Htotal : bytesReceivedLastSecond s1 + Z.of_nat (length (msg d)) = total).
  { subst total. rewrite Hbytes. unfold datagram_bytes.
    rewrite foldr_app. cbn [foldr].
    clear. induction datagrams as [|d' ds IH]; cbn [foldr]; lia. }
  rewrite Htotal in Hnew. repeat split; try done.
  subst r. unfold on_udp_message. run_handler. rewrite Hlast.
  destruct (Z.geb_spec (received d - lastDataRateUpdate s) 1000); [|lia].
  run_handler. by rewrite Htotal.
Qed.


(** *** More on the data window *)

Lemma or_default_Some (n d : Z) :
  or_default (Some n) d = if n =? 0 then d else n.
Proof. by destruct n. Qed.

(** X8.  For a chunk size that is not negative (or left out) no reply
    carries more than [min(chunkSize || 10, 20)] chunks, whatever the start
    index (negative ones included) and whatever the buffer. *)
Theorem chunk_count_cap (buf : list Packet) (rate now : Z)
    (requestInfo : RequestInfo) :
  0 ≤ or_default (chunkSize requestInfo) 10 →
  Z.of_nat (length (chunks (video_data_reply buf rate now requestInfo)))
  ≤ Z.min (or_default (chunkSize requestInfo) 10) 20.
Proof.
  intros Hsize. unfold video_data_reply, js_slice.
  set (len := Z.of_nat (length buf)).
  set (start := or_default (startIndex requestInfo) 0).
  set (size := or_default (chunkSize requestInfo) 10) in *.
  destruct (Z.eqb_spec len 0); cbn [chunks]; [cbn; lia|].
  rewrite length_fmap, length_take, length_drop. fold len.
  destruct (Z.ltb_spec (Z.min start (len - 1)) 0);
    destruct (Z.ltb_spec (Z.min (Z.min start (len - 1) + Z.min size 20) len) 0);
    lia.
Qed.

(** X9.  A negative chunk size is not capped: it reaches [slice] as a
    negative end.  A request from index 0 with chunk size [c], where
    [-length < c < 0], is answered with all packets but the last [-c],
    however many they are. *)
Theorem negative_chunk_size_uncapped (buf : list Packet) (rate now c : Z)
    (start : option Z) :
  or_default start 0 = 0 →
  - Z.of_nat (length buf) < c < 0 →
  chunks (video_data_reply buf rate now (mkRequest start (Some c)))
  = encode_chunk <$> take (Z.to_nat (Z.of_nat (length buf) + c)) buf.
Proof.
  intros Hstart Hc. unfold video_data_reply, js_slice.
  cbn [startIndex chunkSize]. rewrite Hstart.
  set (len := Z.of_nat (length buf)) in *.
  assert (Hsize : or_default (Some c) 10 = c)
    by (rewrite or_default_Some; destruct (Z.eqb_spec c 0); lia).
  rewrite Hsize. destruct (Z.eqb_spec len 0); [lia|]. cbn [chunks].
  replace (Z.min 0 (len - 1)) with 0 by lia.
  replace (Z.min (0 + Z.min c 20) len) with c by lia.
  destruct (Z.ltb_spec 0 0); [lia|]. destruct (Z.ltb_spec c 0); [|lia].
  replace (Z.min 0 len) with 0 by lia. cbn [Z.to_nat drop].
  do 2 f_equal. lia.
Qed.

(** X10.  A start index at or past the last index is answered with the
    last packet alone, [nextIndex = length] and [hasMore = false]: a
    request at the [nextIndex] of a reply without [hasMore] gets the last
    packet once more, never an empty window. *)
Theorem window_past_the_end (buf : list Packet) (rate now : Z)
    (requestInfo : RequestInfo) (p : Packet) :
  last buf = Some p →
  Z.of_nat (length buf) - 1 ≤ or_default (startIndex requestInfo) 0 →
  0 < or_default (chunkSize requestInfo) 10 →
  let reply := video_data_reply buf rate now requestInfo in
  chunks reply = [encode_chunk p]
  ∧ nextIndex reply = Z.of_nat (length buf)
  ∧ hasMore reply = false.
Proof.
  intros Hlast Hstart Hsize reply.
  assert (Hbuf : buf ≠ []) by (by intros ->).
  assert (Hlen : 0 < Z.of_nat (length buf))
    by (destruct buf; [done|cbn [length]; lia]).
  destruct (video_data_reply_from buf rate now requestInfo Hbuf) as [_ Hreply];
    [lia|].
  subst reply. rewrite Hreply. clear Hreply.
  set (len := Z.of_nat (length buf)) in *.
  replace (clamp (or_default (startIndex requestInfo) 0) 0 (len - 1))
    with (len - 1) by (unfold clamp; lia).
  assert (Hdrop : drop (Z.to_nat (len - 1)) buf = [p]).
  { apply last_Some in Hlast as [front ->].
    subst len. rewrite length_app. cbn [length].
    replace (Z.to_nat (Z.of_nat (length front + 1) - 1)) with (length front)
      by lia.
    by rewrite drop_app_length. }
  rewrite Hdrop.
  set (size := or_default (chunkSize requestInfo) 10) in *.
  destruct (Z.ltb_spec (Z.min (len - 1 + Z.min size 20) len) 0); [lia|].
  replace (Z.to_nat (Z.min (Z.min (len - 1 + Z.min size 20) len) len - (len - 1)))
    with 1%nat by lia.
  cbn [take fmap list_fmap length nextIndex chunks hasMore].
  repeat split; [lia|]. apply Z.ltb_ge. lia.
Qed.

(** X11.  A negative start index is not clamped to 0: it reaches [slice],
    which counts it from the end.  The chunks are then taken from index
    [max(length + startIndex, 0)] on, and [nextIndex] is the negative start
    index plus the number of chunks, so it is less than that number. *)
Theorem negative_start_counts_from_end (buf : list Packet) (rate now : Z)
    (requestInfo : RequestInfo) :
  buf ≠ [] →
  or_default (startIndex requestInfo) 0 < 0 →
  let reply := video_data_reply buf rate now requestInfo in
  let start := or_default (startIndex requestInfo) 0 in
  let first := Z.max (Z.of_nat (length buf) + start) 0 in
  chunks reply
  = encode_chunk
      <$> take (length (chunks reply)) (drop (Z.to_nat first) buf)
  ∧ nextIndex reply = start + Z.of_nat (length (chunks reply))
  ∧ nextIndex reply < Z.of_nat (length (chunks reply)).
Proof.
  intros Hbuf Hstart reply start first. subst reply.
  unfold video_data_reply, js_slice. fold start.
  set (len := Z.of_nat (length buf)) in *.
  assert (0 < len) by (subst len; destruct buf; [done|cbn [length]; lia]).
  destruct (Z.eqb_spec len 0); [lia|]. cbn [chunks nextIndex].
  replace (Z.min start (len - 1)) with start by lia.
  destruct (Z.ltb_spec start 0); [|lia]. fold first.
  rewrite length_fmap, take_length_take. repeat split; lia.
Qed.




(** *** The handlers as a whole *)

Lemma on_socket_event_gated (socket : string) (now : Z) (e : SocketEvent) :
  on_socket_event socket now e
  = gated socket (event_limit e) now (event_body socket now e).
Proof. by destruct e. Qed.

Lemma fixed_window_some (interval limit now : Z) (w : option RateWindow) :
  ∃ w', (fixed_window interval limit now w).2 = Some w'
        ∧ (w = Some w' ∨ w' = mkWindow 1 now
           ∨ ∃ w0, w = Some w0 ∧ count w0 < limit
                   ∧ w' = mkWindow (count w0 + 1) (window_start w0)).
Proof.
  unfold fixed_window. destruct w as [w|]; [|eauto].
  destruct (_ >? _); [eauto|].
  destruct (Z.geb_spec (count w) limit); [eauto|]. eauto 10.
Qed.

(** The gate changes nothing but the window of the socket it checks. *)
Lemma rateLimitSocketEvent_state (socket : string) (limit now : Z)
    (s : ServerState) :
  ∃ w, (fixed_window 1000 limit now (socketRateLimits s !! socket)).2 = Some w
       ∧ state (rateLimitSocketEvent socket limit now s)
         = set_socketRateLimits <[socket := w]> s.
Proof.
  unfold rateLimitSocketEvent, fixed_window. run_handler.
  destruct (socketRateLimits s !! socket) as [w|] eqn:Hw; run_handler;
    [|eauto].
  destruct (_ >? _); run_handler; [eauto|].
  destruct (_ >=? _); run_handler; [|eauto].
  exists w. split; [done|]. unfold set_socketRateLimits.
  rewrite (insert_id (socketRateLimits s)) by done. by destruct s.
Qed.

Lemma rate_limit_middleware_state (ip : string) (now : Z) (s : ServerState) :
  ∃ w, (fixed_window (rateLimitInterval config) (rateLimitMaxRequests config)
          now (clientRequests s !! ip)).2 = Some w
       ∧ state (rate_limit_middleware ip now s)
         = set_clientRequests <[ip := w]> s.
Proof.
  unfold rate_limit_middleware, fixed_window. run_handler.
  destruct (clientRequests s !! ip) as [w|] eqn:Hw; run_handler; [|eauto].
  destruct (_ >? _); run_handler; [eauto|].
  destruct (_ >=? _); run_handler; [|eauto].
  exists w. split; [done|]. unfold set_clientRequests.
  rewrite (insert_id (clientRequests s)) by done. by destruct s.
Qed.

Lemma gated_state (socket : string) (limit now : Z) (rest : M unit)
    (s : ServerState) :
  ∃ w, (fixed_window 1000 limit now (socketRateLimits s !! socket)).2 = Some w
       ∧ (state (gated socket limit now rest s)
          = set_socketRateLimits <[socket := w]> s
          ∨ state (gated socket limit now rest s)
            = state (rest (set_socketRateLimits <[socket := w]> s))).
Proof.
  destruct (rateLimitSocketEvent_state socket limit now s) as (w & Hw & Hs).
  exists w. split; [done|]. rewrite gated_result, <- Hs.
  destruct (value _); auto.
Qed.

Lemma register_viewer_state (socket : string) (now : Z) (streamId : string)
    (s : ServerState) :
  state (register_viewer socket now streamId s)
  = match broadcasters s !! streamId with
    | None => s
    | Some _ =>
        set_socketRoles <[socket := mkRole viewer streamId]>
          (set_viewers
             (λ v, alter (set_add socket) streamId
                     (match v !! streamId with
                      | None => <[streamId := []]> v
                      | Some _ => v
                      end)) s)
    end.
Proof.
  unfold register_viewer. run_handler.
  destruct (broadcasters s !! streamId); run_handler; [|done].
  destruct (viewers s !! streamId) eqn:Hv; run_handler;
    rewrite emit_if_connected_state; unfold set_viewers; cbn; by rewrite ?Hv.
Qed.

Lemma on_disconnect_state (socket : string) (now : Z) (s : ServerState) :
  state (on_disconnect socket now s)
  = let s1 := set_socketRateLimits (delete socket) s in
    match socketRoles s !! socket with
    | Some (mkRole broadcaster streamId) =>
        set_socketRoles (delete socket)
          (if decide (broadcasters s !! streamId = Some socket)
           then set_viewers (delete streamId)
                  (set_broadcasters (delete streamId) s1)
           else s1)
    | Some (mkRole viewer streamId) =>
        set_socketRoles (delete socket)
          (set_viewers (alter (set_delete socket) streamId) s1)
    | None => s1
    end.
Proof.
  unfold on_disconnect. run_handler.
  destruct (socketRoles s !! socket) as [[[] streamId]|]; run_handler.
  - by rewrite end_stream_state.
  - by rewrite leave_stream_state.
  - done.
Qed.

(** The effect of the part of a handler behind the gate on the ten state
    variables. *)
Lemma event_body_state (socket : string) (now : Z) (e : SocketEvent)
    (s : ServerState) :
  let s' := state (event_body socket now e s) in
  videoBuffer s' = videoBuffer s
  ∧ bytesReceivedLastSecond s' = bytesReceivedLastSecond s
  ∧ lastDataRateUpdate s' = lastDataRateUpdate s
  ∧ currentDataRate s' = currentDataRate s
  ∧ clientRequests s' = clientRequests s
  ∧ socketRateLimits s' = socketRateLimits s
  ∧ sockets s' = sockets s
  ∧ (dom (broadcasters s) = dom (viewers s) →
     dom (broadcasters s') = dom (viewers s')).
Proof.
  destruct e as [requestInfo|data|streamId|streamId|streamId|streamId|data|data];
    cbn [event_body].
  - by rewrite request_video_data_result.
  - done.
  - unfold register_broadcaster. run_handler.
    destruct (viewers s !! streamId) eqn:Hset; run_handler;
      repeat split; try done; intros Hdom; rewrite !dom_insert_L.
    + rewrite Hdom. apply subseteq_union_1_L, singleton_subseteq_l.
      apply elem_of_dom. eauto.
    + by rewrite Hdom.
  - unfold unregister_broadcaster. run_handler. rewrite end_stream_state.
    case_decide; cbn; repeat split; try done.
    intros Hdom. rewrite !dom_delete_L. by rewrite Hdom.
  - rewrite register_viewer_state.
    destruct (broadcasters s !! streamId) eqn:Hb; cbn; repeat split; try done.
    intros Hdom. rewrite dom_alter_L.
    destruct (viewers s !! streamId) eqn:Hv; [done|].
    rewrite dom_insert_L, <- Hdom. symmetry.
    apply subseteq_union_1_L, singleton_subseteq_l.
    apply elem_of_dom. eauto.
  - unfold unregister_viewer. run_handler. rewrite leave_stream_state. cbn.
    repeat split; try done. intros Hdom. by rewrite dom_alter_L.
  - unfold broadcaster_signal_relay, relay_to.
    destruct (data !! _) as [[]|]; try done.
    by rewrite emit_if_connected_state.
  - unfold viewer_signal_relay, relay_to.
    destruct (data !! _) as [[]|]; try done.
    by rewrite emit_if_connected_state.
Qed.

Lemma gated_drop (socket : string) (limit now : Z) (rest : M unit)
    (s : ServerState) (w : RateWindow) :
  socketRateLimits s !! socket = Some w →
  now - window_start w ≤ 1000 →
  limit ≤ count w →
  gated socket limit now rest s = mkResult tt s [].
Proof.
  intros Hw Hopen Hfull. unfold gated, rateLimitSocketEvent.
  run_handler. rewrite Hw. run_handler.
  destruct (Z.gtb_spec (now - window_start w) 1000); [lia|].
  by destruct (Z.geb_spec (count w) limit); [|lia].
Qed.

(** X13.  An event over the limit is dropped without any effect: when the
    sending socket's window is still open and its counter has reached the
    limit of the event, the handler leaves the whole state as it is, the
    window included, and sends nothing. *)
Theorem rate_limited_event_has_no_effect (socket : string) (now : Z)
    (e : SocketEvent) (s : ServerState) (w : RateWindow) :
  socketRateLimits s !! socket = Some w →
  now - window_start w ≤ 1000 →
  event_limit e ≤ count w →
  handle (socket_sends socket now e) s = mkResult tt s [].
Proof.
  intros Hw Hopen Hfull. cbn [handle].
  rewrite on_socket_event_gated. by apply (gated_drop _ _ _ _ _ w).
Qed.

Lemma socket_event_window (socket : string) (now : Z) (e : SocketEvent)
    (s : ServerState) :
  socketRateLimits (state (handle (socket_sends socket now e) s)) !! socket
  = (fixed_window 1000 (event_limit e) now (socketRateLimits s !! socket)).2.
Proof.
  cbn [handle]. rewrite on_socket_event_gated.
  destruct (gated_state socket (event_limit e) now (event_body socket now e) s)
    as (w & -> & [->| ->]).
  - cbn. by rewrite lookup_insert_eq.
  - destruct (event_body_state socket now e
                (set_socketRateLimits <[socket := w]> s))
      as (_ & _ & _ & _ & _ & -> & _).
    cbn. by rewrite lookup_insert_eq.
Qed.

(** X14.  The window is kept per socket, not per kind of event: the
    signalling events of a socket, which have limit 30, use up the budget
    of its events with limit 5.  After five or more signalling events
    within one second of the first, any registration, unregistration or
    data request of the same socket within that second is dropped without
    effect. *)
Theorem signalling_spends_registration_budget (socket : string) (t0 : Z)
    (first : SocketEvent) (signals : list (Z * SocketEvent)) (now : Z)
    (e : SocketEvent) (s : ServerState) :
  socketRateLimits s !! socket = None →
  event_limit first = 30 →
  Forall (λ te, te.1 - t0 ≤ 1000 ∧ event_limit te.2 = 30) signals →
  (4 ≤ length signals)%nat →
  event_limit e = 5 →
  now - t0 ≤ 1000 →
  let s1 :=
    state (run_each (λ te, handle (socket_sends socket te.1 te.2))
             ((t0, first) :: signals) s) in
  handle (socket_sends socket now e) s1 = mkResult tt s1 [].
Proof.
  intros Hnone Hfirst Hsignals Hmany He Hnow s1.
  assert (Hrun : ∀ (events : list (Z * SocketEvent)) (c : Z) (s0 : ServerState),
    Forall (λ te, te.1 - t0 ≤ 1000 ∧ event_limit te.2 = 30) events →
    1 ≤ c ≤ 30 →
    socketRateLimits s0 !! socket = Some (mkWindow c t0) →
    socketRateLimits
      (state (run_each (λ te, handle (socket_sends socket te.1 te.2))
                events s0)) !! socket
    = Some (mkWindow (Z.min (c + Z.of_nat (length events)) 30) t0)).
  { clear. induction events as [|[t ev] events IH]; intros c s0 Hev Hc Hw.
    - cbn. rewrite Hw. do 2 f_equal. lia.
    - inversion_clear Hev as [|? ? [Ht Hlimit] Hev']. cbn [fst snd] in *.
      cbn [run_each]. run_handler.
      pose proof (socket_event_window socket t ev s0) as Hstep.
      rewrite Hw, Hlimit in Hstep. cbn [fixed_window window_start count] in Hstep.
      destruct (Z.gtb_spec (t - t0) 1000); [lia|].
      destruct (Z.geb_spec c 30); cbn [snd] in Hstep.
      + rewrite (IH c) by (done || lia). do 2 f_equal. cbn [length]. lia.
      + rewrite (IH (c + 1)) by (done || lia). do 2 f_equal. cbn [length]. lia. }
  subst s1. cbn [run_each]. run_handler.
  pose proof (socket_event_window socket t0 first s) as Hstep.
  rewrite Hnone in Hstep. cbn [fixed_window snd] in Hstep.
  specialize (Hrun signals 1 _ Hsignals ltac:(lia) Hstep).
  cbn [handle]. rewrite on_socket_event_gated.
  eapply gated_drop; [exact Hrun|..]; cbn [window_start count]; lia.
Qed.

Lemma windows_within_insert (limit : Z) (table : gmap string RateWindow)
    (interval l now : Z) (key : string) (w : RateWindow) :
  1 ≤ limit → l ≤ limit →
  windows_within limit table →
  (fixed_window interval l now (table !! key)).2 = Some w →
  windows_within limit (<[key := w]> table).
Proof.
  intros Hlimit Hl Htable Hw. apply map_Forall_insert_2; [|done].
  destruct (fixed_window_some interval l now (table !! key))
    as (w' & Hw' & Hcase).
  rewrite Hw in Hw'. injection Hw' as <-.
  destruct Hcase as [Hold|[->|(w0 & Hold & Hlt & ->)]].
  - by apply (Htable key).
  - cbn. lia.
  - apply (Htable key) in Hold. cbn in *. lia.
Qed.

(** X15.  The counters stay in range.  In every state the server reaches
    from its start, every socket's window counts between 1 and 30 events,
    and every address's window between 1 and
    [max(1, rateLimitMaxRequests)] requests. *)
Theorem window_counters_in_range (events : list Event) (t0 : Z)
    (live : gset string) :
  let s := state (run_each handle events (initial_state t0 live)) in
  windows_within 30 (socketRateLimits s)
  ∧ windows_within (Z.max 1 (rateLimitMaxRequests config)) (clientRequests s).
Proof.
  set (P := λ s : ServerState,
    windows_within 30 (socketRateLimits s)
    ∧ windows_within (Z.max 1 (rateLimitMaxRequests config)) (clientRequests s)).
  assert (Hstep : ∀ e s, P s → P (state (handle e s))).
  { intros e s [Hsock Hhttp]. unfold P.
    destruct e as [d|ip now|socket now e|socket now|live0]; cbn [handle].
    - unfold on_udp_message. run_handler. by destruct (_ >=? _).
    - run_handler.
      destruct (rate_limit_middleware_state ip now s) as (w & Hw & ->). cbn.
      split; [done|]. eapply windows_within_insert; [| |done|exact Hw]; lia.
    - rewrite on_socket_event_gated.
      assert (Hl : event_limit e ≤ 30) by (by destruct e).
      destruct (gated_state socket (event_limit e) now
                  (event_body socket now e) s) as (w & Hw & [->| ->]).
      + cbn. split; [|done].
        eapply windows_within_insert; [| |done|exact Hw]; lia.
      + destruct (event_body_state socket now e
                    (set_socketRateLimits <[socket := w]> s))
          as (_ & _ & _ & _ & -> & -> & _).
        cbn. split; [|done].
        eapply windows_within_insert; [| |done|exact Hw]; lia.
    - rewrite on_disconnect_state. cbn zeta.
      destruct (socketRoles s !! socket) as [[[] streamId]|]; cbn;
        try case_decide; cbn; (split; [by apply map_Forall_delete|done]).
    - done. }
  assert (Hrun : ∀ s, P s → P (state (run_each handle events s))).
  { induction events as [|e es IH]; intros s Hs; [done|].
    cbn [run_each]. run_handler. by apply IH, Hstep. }
  apply Hrun. split; apply map_Forall_empty.
Qed.

(** X16.  The table of the HTTP gate only grows: no handler ever removes
    an address from [clientRequests], whereas a socket's window is deleted
    when the socket disconnects. *)
Theorem client_requests_never_shrink (events : list Event) (s : ServerState) :
  dom (clientRequests s)
    ⊆ dom (clientRequests (state (run_each handle events s)))
  ∧ ∀ socket now,
      socketRateLimits
        (state (handle (socket_disconnects socket now)
                  (state (run_each handle events s)))) !! socket = None.
Proof.
  split.
  - revert s. induction events as [|e es IH]; intros s; [done|].
    cbn [run_each]. run_handler. etrans; [|apply IH].
    destruct e as [d|ip now|socket now e|socket now|live0]; cbn [handle].
    + unfold on_udp_message. run_handler. by destruct (_ >=? _).
    + run_handler.
      destruct (rate_limit_middleware_state ip now s) as (w & _ & ->). cbn.
      rewrite dom_insert_L. set_solver.
    + rewrite on_socket_event_gated.
      destruct (gated_state socket (event_limit e) now
                  (event_body socket now e) s) as (w & _ & [->| ->]); [done|].
      by destruct (event_body_state socket now e
                     (set_socketRateLimits <[socket := w]> s))
        as (_ & _ & _ & _ & -> & _).
    + rewrite on_disconnect_state. cbn zeta.
      by destruct (socketRoles s !! socket) as [[[] streamId]|]; cbn;
        try case_decide.
    + done.
  - intros socket now. cbn [handle]. apply on_disconnect_cleared.
Qed.

(** X17.  Only datagrams touch the packet buffer and the data-rate
    counters: every other event leaves [videoBuffer],
    [bytesReceivedLastSecond], [lastDataRateUpdate] and [currentDataRate]
    as they were. *)
Theorem buffer_changes_only_on_datagrams (e : Event) (s : ServerState) :
  (∀ d, e ≠ datagram_arrives d) →
  let s' := state (handle e s) in
  videoBuffer s' = videoBuffer s
  ∧ bytesReceivedLastSecond s' = bytesReceivedLastSecond s
  ∧ lastDataRateUpdate s' = lastDataRateUpdate s
  ∧ currentDataRate s' = currentDataRate s.
Proof.
  intros Hother.
  destruct e as [d|ip now|socket now e|socket now|live0]; cbn [handle].
  - by destruct (Hother d).
  - run_handler.
    by destruct (rate_limit_middleware_state ip now s) as (w & _ & ->).
  - rewrite on_socket_event_gated.
    destruct (gated_state socket (event_limit e) now
                (event_body socket now e) s) as (w & _ & [->| ->]); [done|].
    by destruct (event_body_state socket now e
                   (set_socketRateLimits <[socket := w]> s))
      as (-> & -> & -> & -> & _).
  - rewrite on_disconnect_state. cbn zeta.
    by destruct (socketRoles s !! socket) as [[[] streamId]|]; cbn;
      try case_decide.
  - done.
Qed.

(** X18.  A viewer set exists exactly for the streams that have a
    broadcaster: in every state the server reaches from its start, the
    keys of [viewers] are the keys of [broadcasters]. *)
Theorem viewer_sets_match_broadcasters (events : list Event) (t0 : Z)
    (live : gset string) :
  let s := state (run_each handle events (initial_state t0 live)) in
  dom (viewers s) = dom (broadcasters s).
Proof.
  set (P := λ s : ServerState, dom (broadcasters s) = dom (viewers s)).
  assert (Hstep : ∀ e s, P s → P (state (handle e s))).
  { intros e s Hs. unfold P in *.
    destruct e as [d|ip now|socket now e|socket now|live0]; cbn [handle].
    - unfold on_udp_message. run_handler. by destruct (_ >=? _).
    - run_handler.
      by destruct (rate_limit_middleware_state ip now s) as (w & _ & ->).
    - rewrite on_socket_event_gated.
      destruct (gated_state socket (event_limit e) now
                  (event_body socket now e) s) as (w & _ & [->| ->]); [done|].
      by apply event_body_state.
    - rewrite on_disconnect_state. cbn zeta.
      destruct (socketRoles s !! socket) as [[[] streamId]|]; cbn;
        try case_decide; cbn; rewrite ?dom_delete_L, ?dom_alter_L; try done.
      by rewrite Hs.
    - done. }
  assert (Hrun : ∀ s, P s → P (state (run_each handle events s))).
  { induction events as [|e es IH]; intros s Hs; [done|].
    cbn [run_each]. run_handler. by apply IH, Hstep. }
  intros s. symmetry. apply Hrun. unfold P. cbn. by rewrite !dom_empty_L.
Qed.


(** *** More on the registry *)

Lemma for_of_emit_if_connected (xs : list string) (p : string → Payload)
    (s : ServerState) :
  emitted (for_of xs (λ x, emit_if_connected x (p x)) s)
  = (λ x, mkEmit (ToSocket x) (p x)) <$> filter (λ x, x ∈ sockets s) xs.
Proof.
  induction xs as [|x xs IH]; [done|].
  cbn [for_of]. run_handler. rewrite emit_if_connected_state, IH.
  unfold emit_if_connected. run_handler.
  destruct (decide (x ∈ sockets s)).
  - by rewrite filter_cons_True.
  - by rewrite filter_cons_False.
Qed.

Lemma end_stream_emitted (socket : string) (now : Z) (streamId : string)
    (reason : option string) (s : ServerState) (streamViewers : list string) :
  broadcasters s !! streamId = Some socket →
  viewers s !! streamId = Some streamViewers →
  emitted (end_stream socket now streamId reason s)
  = (λ v, mkEmit (ToSocket v) (stream_ended streamId now reason))
      <$> filter (λ v, v ∈ sockets s) streamViewers.
Proof.
  intros Hb Hv. unfold end_stream. run_handler.
  rewrite decide_True by done. run_handler. rewrite Hv. run_handler.
  rewrite for_of_emit_if_connected. cbn [sockets set_broadcasters].
  by rewrite app_nil_r.
Qed.

Lemma set_add_elem (x : string) (l : list string) : x ∈ set_add x l.
Proof.
  unfold set_add. case_decide; [done|]. apply elem_of_app. right.
  by apply list_elem_of_singleton.
Qed.


Lemma set_delete_add (x : string) (l : list string) :
  x ∉ l → set_delete x (set_add x l) = l.
Proof.
  intros Hx. unfold set_add. rewrite decide_False by done.
  unfold set_delete. rewrite filter_app, filter_cons_False, filter_nil, app_nil_r
    by (intros H; by apply H).
  by apply set_delete_absent.
Qed.



(** X21.  Registering as a viewer and unregistering again restores the
    viewer sets: for a socket that was not in the stream's set, the
    [broadcasters] and [viewers] maps end as they began, and the socket has
    no role entry. *)
Theorem viewer_round_trip (socket : string) (now now' : Z)
    (streamId : string) (s : ServerState) (streamViewers : list string) :
  is_Some (broadcasters s !! streamId) →
  viewers s !! streamId = Some streamViewers →
  socket ∉ streamViewers →
  let s2 := state (unregister_viewer socket now' streamId
                     (state (register_viewer socket now streamId s))) in
  broadcasters s2 = broadcasters s
  ∧ viewers s2 = viewers s
  ∧ socketRoles s2 = delete socket (socketRoles s).
Proof.
  intros [b Hb] Hv Hnew s2. subst s2.
  unfold unregister_viewer. run_handler.
  rewrite leave_stream_state, register_viewer_state, Hb. cbn. rewrite Hv.
  split; [done|]. split.
  - apply map_eq. intros k. destruct (decide (k = streamId)) as [->|Hk].
    + rewrite !lookup_alter_eq, Hv. cbn. by rewrite set_delete_add.
    + by rewrite !lookup_alter_ne.
  - by rewrite delete_insert_eq.
Qed.

(** X22.  Registering a stream that is not in the registry and
    unregistering it again restores the registry: [broadcasters] and
    [viewers] end as they began, and the socket has no role entry. *)
Theorem broadcaster_round_trip (socket : string) (now now' : Z)
    (streamId : string) (s : ServerState) :
  broadcasters s !! streamId = None →
  viewers s !! streamId = None →
  let s2 := state (unregister_broadcaster socket now' streamId
                     (state (register_broadcaster socket now streamId s))) in
  broadcasters s2 = broadcasters s
  ∧ viewers s2 = viewers s
  ∧ socketRoles s2 = delete socket (socketRoles s).
Proof.
  intros Hb Hv s2. subst s2.
  destruct (register_broadcaster_result socket now streamId s)
    as (Hb1 & Hv1 & Hr1 & _).
  unfold unregister_broadcaster. run_handler. rewrite end_stream_state.
  rewrite decide_True by (by rewrite Hb1, lookup_insert_eq).
  cbn. rewrite Hb1, Hv1, Hr1, Hv. rewrite !delete_insert_eq.
  by rewrite (delete_id (broadcasters s)), (delete_id (viewers s)).
Qed.

(** X23.  When the broadcaster of a stream unregisters it or disconnects,
    every viewer of the stream that is still connected is sent one
    'stream-ended' message, in the order in which the viewers registered;
    viewers that are gone are skipped; and the stream leaves both
    [broadcasters] and [viewers]. *)
Theorem stream_end_notifies_connected_viewers (socket : string) (now : Z)
    (streamId : string) (s : ServerState) (streamViewers : list string) :
  broadcasters s !! streamId = Some socket →
  viewers s !! streamId = Some streamViewers →
  let notices reason :=
    (λ v, mkEmit (ToSocket v) (stream_ended streamId now reason))
      <$> filter (λ v, v ∈ sockets s) streamViewers in
  (let r := unregister_broadcaster socket now streamId s in
   emitted r = notices None
   ∧ broadcasters (state r) = delete streamId (broadcasters s)
   ∧ viewers (state r) = delete streamId (viewers s))
  ∧ (socketRoles s !! socket = Some (mkRole broadcaster streamId) →
     let r := on_disconnect socket now s in
     emitted r = notices (Some "broadcaster-disconnected"%string)
     ∧ broadcasters (state r) = delete streamId (broadcasters s)
     ∧ viewers (state r) = delete streamId (viewers s)).
Proof.
  intros Hb Hv notices. split.
  - unfold unregister_broadcaster. run_handler.
    rewrite end_stream_state, decide_True by done. cbn.
    rewrite (end_stream_emitted _ _ _ _ _ streamViewers) by done.
    by rewrite app_nil_r.
  - intros Hrole r. subst r. split.
    + unfold on_disconnect. run_handler. rewrite Hrole. run_handler.
      rewrite (end_stream_emitted _ _ _ _ _ streamViewers) by done.
      by rewrite app_nil_r.
    + rewrite on_disconnect_state, Hrole. cbn zeta.
      by rewrite decide_True by done.
Qed.

(** X24.  The disconnection of a superseded broadcaster does not end the
    stream: when the socket's role names a stream whose stored source is
    another socket (or none), the handler sends nothing and only deletes
    the socket's own window and role entry. *)
Theorem superseded_broadcaster_disconnects (socket : string) (now : Z)
    (streamId : string) (s : ServerState) :
  socketRoles s !! socket = Some (mkRole broadcaster streamId) →
  broadcasters s !! streamId ≠ Some socket →
  on_disconnect socket now s
  = mkResult tt
      (set_socketRoles (delete socket)
         (set_socketRateLimits (delete socket) s)) [].
Proof.
  intros Hrole Hstale. unfold on_disconnect, end_stream. run_handler.
  rewrite Hrole. run_handler. by rewrite decide_False.
Qed.

(** X25.  Only the stream a socket registered for last is cleaned up at
    its disconnection.  A socket that registers as a viewer of one stream
    and then of another stays in the viewer set of the first stream after
    it has disconnected. *)
Theorem disconnect_leaves_earlier_viewer_entry (socket : string)
    (t1 t2 t3 : Z) (first second : string) (s : ServerState) :
  first ≠ second →
  is_Some (broadcasters s !! first) →
  is_Some (broadcasters s !! second) →
  let s3 :=
    state ((register_viewer socket t1 first ;;
            register_viewer socket t2 second ;;
            on_disconnect socket t3) s) in
  (∃ streamViewers,
     viewers s3 !! first = Some streamViewers ∧ socket ∈ streamViewers)
  ∧ socketRoles s3 !! socket = None.
Proof.
  intros Hne [b1 Hb1] [b2 Hb2] s3. subst s3. run_handler.
  split; [|apply on_disconnect_cleared].
  set (s1 := state (register_viewer socket t1 first s)).
  assert (H1 : ∃ l, viewers s1 !! first = Some l ∧ socket ∈ l).
  { subst s1. rewrite register_viewer_state, Hb1. cbn.
    destruct (viewers s !! first) as [l|] eqn:Hv.
    - rewrite lookup_alter_eq, Hv. cbn. eauto using set_add_elem.
    - rewrite lookup_alter_eq, lookup_insert_eq. cbn. eauto using set_add_elem. }
  assert (Hb2' : broadcasters s1 !! second = Some b2)
    by (subst s1; by rewrite register_viewer_state, Hb1).
  destruct H1 as (l & Hl & Hin).
  set (s2 := state (register_viewer socket t2 second s1)).
  assert (H2 : viewers s2 !! first = Some l
               ∧ socketRoles s2 !! socket = Some (mkRole viewer second)).
  { subst s2. rewrite register_viewer_state, Hb2'. cbn.
    rewrite lookup_insert_eq, lookup_alter_ne by done. split; [|done].
    destruct (viewers s1 !! second); [done|]. by rewrite lookup_insert_ne. }
  destruct H2 as [Hl2 Hrole]. exists l. split; [|done].
  rewrite on_disconnect_state, Hrole. cbn. by rewrite lookup_alter_ne.
Qed.

(** X26.  Likewise for broadcasters: a socket that registers one stream
    and then another leaves the first one behind when it disconnects.  The
    first stream stays in [broadcasters] with the departed socket as its
    source. *)
Theorem disconnect_leaves_earlier_stream (socket : string) (t1 t2 t3 : Z)
    (first second : string) (s : ServerState) :
  first ≠ second →
  let s3 :=
    state ((register_broadcaster socket t1 first ;;
            register_broadcaster socket t2 second ;;
            on_disconnect socket t3) s) in
  broadcasters s3 !! first = Some socket
  ∧ broadcasters s3 !! second = None
  ∧ socketRoles s3 !! socket = None.
Proof.
  intros Hne s3. subst s3. run_handler.
  set (s1 := state (register_broadcaster socket t1 first s)).
  set (s2 := state (register_broadcaster socket t2 second s1)).
  destruct (register_broadcaster_result socket t1 first s) as (Hb1 & _).
  destruct (register_broadcaster_result socket t2 second s1)
    as (Hb2 & _ & Hr2 & _).
  fold s1 in Hb1. fold s2 in Hb2, Hr2.
  split; [|split; [|apply on_disconnect_cleared]];
    rewrite on_disconnect_state, Hr2, lookup_insert_eq; cbn zeta;
    rewrite decide_True by (by rewrite Hb2, lookup_insert_eq); cbn.
  - by rewrite lookup_delete_ne, Hb2, lookup_insert_ne, Hb1, lookup_insert_eq.
  - apply lookup_delete_eq.
Qed.

(** *** More on the relay *)

Lemma augment_lookup (data : gmap string Value) (field socket : string)
    (now : Z) :
  field ≠ "timestamp"%string →
  augment data field socket now !! field = Some (VStr socket)
  ∧ augment data field socket now !! "timestamp"%string = Some (VNum now)
  ∧ ∀ k, k ≠ field → k ≠ "timestamp"%string →
         augment data field socket now !! k = data !! k.
Proof.
  intros Hfield. unfold augment. repeat split.
  - by rewrite lookup_insert_ne, lookup_insert_eq.
  - by rewrite lookup_insert_eq.
  - intros k Hk Ht. by rewrite !lookup_insert_ne.
Qed.


(** X28.  The directed relays deliver to nobody but the named target, and
    they vouch for the sender: every message 'broadcaster-signal' sends
    goes to the connected socket named by [viewerId] and carries the
    sending socket as [broadcasterId]; every message 'viewer-signal' sends
    goes to the connected socket named by [broadcasterId] and carries the
    sending socket as [viewerId]. *)
Theorem directed_relay_is_authentic (socket : string) (now : Z)
    (data : gmap string Value) (s : ServerState) (m : Emit) :
  (m ∈ emitted (broadcaster_signal_relay socket now data s) →
   ∃ targetId body,
     m = mkEmit (ToSocket targetId) (viewer_signal body)
     ∧ data !! "viewerId"%string = Some (VStr targetId)
     ∧ targetId ∈ sockets s
     ∧ body !! "broadcasterId"%string = Some (VStr socket))
  ∧ (m ∈ emitted (viewer_signal_relay socket now data s) →
     ∃ targetId body,
       m = mkEmit (ToSocket targetId) (broadcaster_signal body)
       ∧ data !! "broadcasterId"%string = Some (VStr targetId)
       ∧ targetId ∈ sockets s
       ∧ body !! "viewerId"%string = Some (VStr socket)).
Proof.
  unfold broadcaster_signal_relay, viewer_signal_relay, relay_to,
    emit_if_connected.
  split; intros Hm.
  - destruct (data !! "viewerId"%string) as [[|targetId|]|]; run_handler;
      try by apply elem_of_nil in Hm.
    revert Hm. run_handler. case_decide; intros Hm; run_handler;
      [|by apply elem_of_nil in Hm].
    apply list_elem_of_singleton in Hm as ->.
    eexists _, _. repeat split; [done|]. by apply augment_lookup.
  - destruct (data !! "broadcasterId"%string) as [[|targetId|]|]; run_handler;
      try by apply elem_of_nil in Hm.
    revert Hm. run_handler. case_decide; intros Hm; run_handler;
      [|by apply elem_of_nil in Hm].
    apply list_elem_of_singleton in Hm as ->.
    eexists _, _. repeat split; [done|]. by apply augment_lookup.
Qed.


(** *** The window boundary *)

Lemma fixed_window_run_app (interval limit : Z) (ts1 ts2 : list Z)
    (w : option RateWindow) :
  fixed_window_run interval limit (ts1 ++ ts2) w
  = let r1 := fixed_window_run interval limit ts1 w in
    let r2 := fixed_window_run interval limit ts2 r1.2 in
    (r1.1 ++ r2.1, r2.2).
Proof.
  revert w. induction ts1 as [|t ts1 IH]; intros w; cbn [app fixed_window_run].
  - cbn. by destruct (fixed_window_run interval limit ts2 w).
  - destruct (fixed_window interval limit t w) as [d w1]. rewrite IH.
    destruct (fixed_window_run interval limit ts1 w1) as [d1 w2]. cbn.
    by destruct (fixed_window_run interval limit ts2 w2).
Qed.

Lemma fixed_window_run_burst (interval limit t0 : Z) :
  1 ≤ limit → 0 ≤ interval →
  (fixed_window_run interval limit (boundary_burst interval limit t0) None).1
  = replicate (2 * Z.to_nat limit) false.
Proof.
  intros Hlimit Hinterval. unfold boundary_burst.
  cbn [fixed_window_run fixed_window].
  rewrite fixed_window_run_app.
  rewrite (fixed_window_run_within interval limit t0 _ 1)
    by (try apply Forall_replicate; lia).
  cbn [fst snd]. rewrite length_replicate.
  replace (Z.to_nat limit) with (S (Z.to_nat (limit - 1))) by lia.
  cbn [replicate fixed_window_run fixed_window window_start].
  destruct (Z.gtb_spec (t0 + interval + 1 - t0) interval); [|lia].
  rewrite (fixed_window_run_within interval limit (t0 + interval + 1) _ 1)
    by (try apply Forall_replicate; lia).
  cbn [fst snd]. rewrite length_replicate.
  replace (Z.to_nat (limit - 1) `min` Z.to_nat (limit - 1))%nat
    with (Z.to_nat (limit - 1)) by lia.
  rewrite Nat.sub_diag. cbn [replicate]. rewrite !app_nil_r.
  replace (2 * S (Z.to_nat (limit - 1)))%nat
    with (S (Z.to_nat (limit - 1) + S (Z.to_nat (limit - 1)))) by lia.
  cbn [replicate]. f_equal. by rewrite replicate_add.
Qed.

(** X29.  The fixed window lets bursts through at its boundary.  For a
    limit of at least 1, a subject without window state gets [2 * limit]
    events past either gate when one is sent at [t0], [limit - 1] a full
    interval later and [limit] more one millisecond after those: all but
    the first fall within one millisecond. *)
Theorem window_boundary_burst (limit t0 : Z) (s : ServerState) :
  1 ≤ limit →
  (∀ socket,
     socketRateLimits s !! socket = None →
     value (decisions (rateLimitSocketEvent socket limit)
              (boundary_burst 1000 limit t0) s)
     = replicate (2 * Z.to_nat limit) false)
  ∧ (rateLimitMaxRequests config = limit →
     0 ≤ rateLimitInterval config →
     ∀ ip,
       clientRequests s !! ip = None →
       value (decisions (rate_limit_middleware ip)
                (boundary_burst (rateLimitInterval config) limit t0) s)
       = replicate (2 * Z.to_nat limit) next).
Proof.
  intros Hlimit. split.
  - intros socket Hnone.
    destruct (socket_gate_run socket limit (boundary_burst 1000 limit t0) s)
      as [-> _].
    rewrite Hnone. by apply fixed_window_run_burst.
  - intros <- Hinterval ip Hnone.
    destruct (http_gate_run ip
                (boundary_burst (rateLimitInterval config)
                   (rateLimitMaxRequests config) t0) s) as [-> _].
    rewrite Hnone, fixed_window_run_burst by done.
    by rewrite fmap_replicate.
Qed.

End Server.

(** ** Concrete runs *)

Local Open Scope string_scope.
Local Open Scope Z_scope.

(** An oversized packet is not kept.  With a ceiling of 5 bytes, a 6-byte
    datagram arriving at an empty buffer is evicted by the loop that follows
    its insertion: the buffer ends empty, it does not hold that one packet,
    so "the total is within the ceiling or the buffer is that one packet,
    which is kept" fails in its second half. *)
Lemma oversized_packet_not_kept :
  let d := mkDatagram [x01; x02; x03; x04; x05; x06] "192.0.2.1" 5000 10 in
  let buf :=
    videoBuffer (state (on_udp_message small_config constant_digest d
                          (initial_state 0 ∅))) in
  buf = []
  ∧ ¬ ((total_size buf ≤ MAX_BUFFER_SIZE small_config ∨ length buf = 1%nat)
       ∧ (MAX_BUFFER_SIZE small_config < Z.of_nat (length (msg d)) →
          buf = [packet_of constant_digest d])).
Proof.
  split; [reflexivity|]. intros [_ Hkept].
  discriminate Hkept. reflexivity.
Qed.

(** [packet_buffer_bound] on two 3-byte datagrams followed by a 6-byte
    one, ceiling 5. *)
Lemma packet_buffer_bound_witness :
  let datagrams :=
    [mkDatagram [x01; x02; x03] "192.0.2.1" 5000 10;
     mkDatagram [x04; x05; x06] "192.0.2.1" 5000 20] in
  let big := mkDatagram [x01; x02; x03; x04; x05; x06] "192.0.2.1" 5000 30 in
  let s :=
    state (run_each (on_udp_message small_config constant_digest) datagrams
             (initial_state 0 ∅)) in
  0 ≤ MAX_BUFFER_SIZE small_config
  ∧ MAX_BUFFER_SIZE small_config < Z.of_nat (length (msg big))
  ∧ total_size (videoBuffer s) ≤ MAX_BUFFER_SIZE small_config
  ∧ videoBuffer (state (on_udp_message small_config constant_digest big s)) = [].
Proof.
  intros datagrams big s.
  assert (Hmax : 0 ≤ MAX_BUFFER_SIZE small_config) by (vm_compute; discriminate).
  assert (Hbig : MAX_BUFFER_SIZE small_config < Z.of_nat (length (msg big)))
    by reflexivity.
  destruct (packet_buffer_bound small_config constant_digest datagrams 0 ∅ Hmax)
    as [Hsum Hevict].
  exact (conj Hmax (conj Hbig (conj Hsum (Hevict big Hbig)))).
Defined.

(** The rate-window property fails for limit 0: the first event of a
    subject that has no window is let through by both gates, where the
    property asks for event [0 + 1] to be denied. *)
Lemma zero_limit_first_event_passes :
  ¬ socket_gate_window_reset "c1" 0
  ∧ ¬ http_gate_window_reset (mkConfig 5 1000 0) "192.0.2.1".
Proof.
  split; intros H.
  - destruct (H (initial_state 0 ∅) 0 [] 1001) as (Hd & _);
      [reflexivity|reflexivity|constructor|reflexivity|].
    vm_compute in Hd. discriminate Hd.
  - destruct (H (initial_state 0 ∅) 0 [] 1001) as (Hd & _);
      [reflexivity|reflexivity|constructor|reflexivity|].
    vm_compute in Hd. discriminate Hd.
Qed.

(** [rate_window_reset] for limit 2: events at 0, 400 and 900 ms, then one
    at 1001 ms, through both gates. *)
Lemma rate_window_reset_witness :
  let s := initial_state 0 ∅ in
  let r := decisions (rateLimitSocketEvent "c1" 2) [0; 400; 900] s in
  let r' := rateLimitSocketEvent "c1" 2 1001 (state r) in
  let h := decisions (rate_limit_middleware small_config "192.0.2.1")
             [0; 400; 900] s in
  let h' := rate_limit_middleware small_config "192.0.2.1" 1001 (state h) in
  1 ≤ 2
  ∧ (value r = [false; false; true] ∧ value r' = false
     ∧ socketRateLimits (state r') !! "c1" = Some (mkWindow 1 1001))
  ∧ (value h = [next; next; too_many_requests] ∧ value h' = next
     ∧ clientRequests (state h') !! "192.0.2.1" = Some (mkWindow 1 1001)).
Proof.
  intros s r r' h h'.
  assert (Hlimit : 1 ≤ 2) by lia.
  assert (Hts : Forall (λ t, t - 0 ≤ 1000) [400; 900])
    by (repeat constructor; lia).
  destruct (rate_window_reset small_config 2 Hlimit) as [Hsocket Hhttp].
  split; [exact Hlimit|]. split.
  - apply (Hsocket "c1" s 0 [400; 900] 1001); [reflexivity|reflexivity|exact Hts|lia].
  - apply (Hhttp eq_refl "192.0.2.1" s 0 [400; 900] 1001);
      [reflexivity|reflexivity|exact Hts|reflexivity].
Defined.

(** The window is not always the slice from the clamped start index with
    at most [min(chunkSize, 20)] entries.  On a buffer of three packets, a
    request with start index -1 is answered with the last packet, not with
    a slice that starts at index [clamp(-1, 0, 2) = 0]; a request with chunk
    size 0 is answered with all three packets, more than [min(0, 20) = 0];
    and a request with chunk size -1 is answered with two packets. *)
Lemma window_not_as_specified :
  let reply start maxCount :=
    video_data_reply constant_base64 three_packets 0 40
      (mkRequest (Some start) (Some maxCount)) in
  (chunks (reply (-1) 10) = [mkChunk "cccccccc" "" 30 1]
   ∧ ¬ window_of constant_base64 three_packets (-1) (Z.min 10 20) (reply (-1) 10))
  ∧ (length (chunks (reply 0 0)) = 3%nat
     ∧ ¬ window_of constant_base64 three_packets 0 (Z.min 0 20) (reply 0 0))
  ∧ (length (chunks (reply 0 (-1))) = 2%nat
     ∧ ¬ window_of constant_base64 three_packets 0 (Z.min (-1) 20)
           (reply 0 (-1))).
Proof.
  intros reply. repeat split.
  - intros [Hslice _]. vm_compute in Hslice. discriminate Hslice.
  - intros [_ Hlen]. vm_compute in Hlen. by apply Hlen.
  - intros [_ Hlen]. vm_compute in Hlen. by apply Hlen.
Qed.

(** [data_window] on three packets: start index 7 (past the end) and chunk
    size 2. *)
Lemma data_window_witness :
  let requestInfo := mkRequest (Some 7) (Some 2) in
  let s := set_videoBuffer (λ _, three_packets) (initial_state 0 {["c1"]}) in
  let reply := video_data_reply constant_base64 three_packets 0 40 requestInfo in
  0 ≤ or_default (startIndex requestInfo) 0
  ∧ 0 ≤ or_default (chunkSize requestInfo) 10
  ∧ videoBuffer s ≠ []
  ∧ request_video_data constant_base64 "c1" 40 requestInfo s
    = mkResult tt s [mkEmit (ToSocket "c1") (video_data reply)]
  ∧ window_of constant_base64 three_packets 7 (Z.min 2 20) reply.
Proof.
  intros requestInfo s reply.
  assert (Hstart : 0 ≤ or_default (startIndex requestInfo) 0)
    by (vm_compute; discriminate).
  assert (Hsize : 0 ≤ or_default (chunkSize requestInfo) 10)
    by (vm_compute; discriminate).
  assert (Hbuf : videoBuffer s ≠ []) by discriminate.
  destruct (data_window constant_base64 "c1" 40 requestInfo s Hstart Hsize)
    as (Hsent & _ & Hwindow).
  exact (conj Hstart (conj Hsize (conj Hbuf (conj Hsent (Hwindow Hbuf))))).
Defined.

(** [data_window_reply] on three packets: start index 1 and chunk size 1. *)
Lemma data_window_reply_witness :
  let requestInfo := mkRequest (Some 1) (Some 1) in
  let reply := video_data_reply constant_base64 three_packets 0 40 requestInfo in
  three_packets ≠ []
  ∧ 0 ≤ or_default (startIndex requestInfo) 0
  ∧ nextIndex reply = 1 + Z.of_nat (length (chunks reply))
  ∧ nextIndex reply ≤ 3
  ∧ chunks reply
    = encode_chunk constant_base64
        <$> take (Z.to_nat (nextIndex reply - 1)) (drop 1 three_packets)
  ∧ (hasMore reply = true ↔ nextIndex reply < 3).
Proof.
  intros requestInfo reply.
  assert (Hbuf : three_packets ≠ []) by discriminate.
  assert (Hstart : 0 ≤ or_default (startIndex requestInfo) 0)
    by (vm_compute; discriminate).
  exact (conj Hbuf (conj Hstart
           (data_window_reply constant_base64 three_packets 0 40 requestInfo
              Hbuf Hstart))).
Defined.

(** A late unregistration is not ignored altogether.  Socket "c1"
    registered stream "s1" and was
    superseded by "c2".  Its late 'unregister-broadcaster' changes neither
    [broadcasters] nor [viewers] and sends nothing, but it deletes the
    [socketRoles] entry of "c1": the registry state is not left as it was. *)
Lemma stale_unregister_clears_role :
  let s := superseded_source in
  let r := unregister_broadcaster "c1" 30 "s1" s in
  broadcasters s !! "s1" ≠ Some "c1"
  ∧ socketRoles s !! "c1" = Some (mkRole broadcaster "s1")
  ∧ socketRoles (state r) !! "c1" = None
  ∧ ¬ (broadcasters (state r) = broadcasters s
       ∧ viewers (state r) = viewers s
       ∧ socketRoles (state r) = socketRoles s
       ∧ emitted r = []).
Proof.
  intros s r.
  assert (Hbefore : socketRoles s !! "c1" = Some (mkRole broadcaster "s1"))
    by reflexivity.
  assert (Hafter : socketRoles (state r) !! "c1" = None) by reflexivity.
  split; [discriminate|]. split; [exact Hbefore|]. split; [exact Hafter|].
  intros (_ & _ & Hroles & _). rewrite Hroles, Hbefore in Hafter.
  discriminate Hafter.
Qed.

(** [stale_unregister_broadcaster] for the superseded socket "c1". *)
Lemma stale_unregister_broadcaster_witness :
  let s := superseded_source in
  broadcasters s !! "s1" ≠ Some "c1"
  ∧ unregister_broadcaster "c1" 30 "s1" s
    = mkResult tt (set_socketRoles (delete "c1") s) [].
Proof.
  intros s.
  assert (Hstale : broadcasters s !! "s1" ≠ Some "c1") by discriminate.
  exact (conj Hstale (stale_unregister_broadcaster "c1" 30 "s1" s Hstale)).
Defined.

(** Unregistering from a stream one does not watch is not a no-op.
    Socket "c2" watches stream "s1" and never
    registered for "s2".  Its 'unregister-viewer' for "s2" leaves every
    viewer set as it was, but it deletes the [socketRoles] entry of "c2"
    (viewer of "s1"): the connection-role table is not left as it was. *)
Lemma unregister_viewer_clears_role :
  let s := one_viewer in
  let r := unregister_viewer "c2" 30 "s2" s in
  viewers s !! "s2" = None
  ∧ socketRoles s !! "c2" = Some (mkRole viewer "s1")
  ∧ socketRoles (state r) !! "c2" = None
  ∧ ¬ (viewers (state r) = viewers s ∧ socketRoles (state r) = socketRoles s).
Proof.
  intros s r.
  assert (Hbefore : socketRoles s !! "c2" = Some (mkRole viewer "s1"))
    by reflexivity.
  assert (Hafter : socketRoles (state r) !! "c2" = None) by reflexivity.
  split; [reflexivity|]. split; [exact Hbefore|]. split; [exact Hafter|].
  intros [_ Hroles]. rewrite Hroles, Hbefore in Hafter. discriminate Hafter.
Qed.

(** [unregister_viewer_absent] for socket "c2" and stream "s2". *)
Lemma unregister_viewer_absent_witness :
  let s := one_viewer in
  (∀ streamViewers, viewers s !! "s2" = Some streamViewers → "c2" ∉ streamViewers)
  ∧ state (unregister_viewer "c2" 30 "s2" s) = set_socketRoles (delete "c2") s.
Proof.
  intros s.
  assert (Habsent : ∀ streamViewers,
            viewers s !! "s2" = Some streamViewers → "c2" ∉ streamViewers)
    by (intros streamViewers Hset; discriminate Hset).
  exact (conj Habsent (unregister_viewer_absent "c2" 30 "s2" s Habsent)).
Defined.

(** [register_keeps_viewers]: socket "c3" registers stream "s1", which
    "c1" had registered and "c2" watches. *)
Lemma register_keeps_viewers_witness :
  let s := one_viewer in
  let r := register_broadcaster "c3" 30 "s1" s in
  viewers s !! "s1" = Some ["c2"]
  ∧ viewers (state r) = viewers s
  ∧ emitted r = [mkEmit (ToAllExcept "c3") (stream_available "s1" 30)].
Proof.
  intros s r.
  assert (Hset : viewers s !! "s1" = Some ["c2"]) by reflexivity.
  exact (conj Hset
           (register_keeps_viewers "c3" 30 "s1" s (ex_intro _ ["c2"] Hset))).
Defined.

(** [directed_relay] with sockets "c1" and "c2" connected: a signal from
    "c1" to "ghost" is dropped, a signal from "c1" to "c2" is delivered. *)
Lemma directed_relay_witness :
  let s := initial_state 0 {["c1"; "c2"]} in
  let to_ghost : gmap string Value :=
    {["viewerId" := VStr "ghost"; "broadcasterId" := VStr "ghost";
      "type" := VStr "offer"]} in
  let to_c2 : gmap string Value :=
    {["viewerId" := VStr "c2"; "broadcasterId" := VStr "c2";
      "type" := VStr "offer"]} in
  (broadcaster_signal_relay "c1" 50 to_ghost s = mkResult tt s []
   ∧ viewer_signal_relay "c1" 50 to_ghost s = mkResult tt s [])
  ∧ (broadcaster_signal_relay "c1" 50 to_c2 s
     = mkResult tt s
         [mkEmit (ToSocket "c2")
            (viewer_signal
               (<["timestamp" := VNum 50]> (<["broadcasterId" := VStr "c1"]> to_c2)))]
     ∧ viewer_signal_relay "c1" 50 to_c2 s
       = mkResult tt s
           [mkEmit (ToSocket "c2")
              (broadcaster_signal
                 (<["timestamp" := VNum 50]> (<["viewerId" := VStr "c1"]> to_c2)))]).
Proof.
  intros s to_ghost to_c2.
  assert (Hghost : "ghost" ∉ sockets s)
    by (apply (bool_decide_eq_false_1 _); vm_compute; reflexivity).
  assert (Hviewer : ¬ names_live_socket (to_ghost !! "viewerId") s).
  { intros (socketId & Htarget & Hlive).
    vm_compute in Htarget. injection Htarget as <-. exact (Hghost Hlive). }
  assert (Hbroadcaster : ¬ names_live_socket (to_ghost !! "broadcasterId") s).
  { intros (socketId & Htarget & Hlive).
    vm_compute in Htarget. injection Htarget as <-. exact (Hghost Hlive). }
  assert (Hlive : "c2" ∈ sockets s)
    by (apply (bool_decide_eq_true_1 _); vm_compute; reflexivity).
  destruct (directed_relay "c1" 50 to_ghost s) as (Hdrop1 & Hdrop2 & _).
  destruct (directed_relay "c1" 50 to_c2 s) as (_ & _ & Hsend1 & Hsend2).
  split; split.
  - exact (Hdrop1 Hviewer).
  - exact (Hdrop2 Hbroadcaster).
  - exact (Hsend1 "c2" eq_refl Hlive).
  - exact (Hsend2 "c2" eq_refl Hlive).
Defined.

(** ** Scenarios of the design document *)

(** Three 2-byte packets with a ceiling of 5 bytes: after the third the
    buffer holds the second and the third, 4 bytes in all. *)
Example three_pushes_evict_the_first :
  let datagrams :=
    [mkDatagram [x01; x02] "192.0.2.1" 5000 10;
     mkDatagram [x03; x04] "192.0.2.1" 5000 20;
     mkDatagram [x05; x06] "192.0.2.1" 5000 30] in
  videoBuffer
    (state (run_each (on_udp_message small_config constant_digest) datagrams
              (initial_state 0 ∅)))
  = [mkPacket "00000000" [x03; x04] 20 2; mkPacket "00000000" [x05; x06] 30 2].
Proof. reflexivity. Qed.

(** A viewer that registers for a stream nobody has registered is told
    'stream-unavailable'. *)
Example viewer_of_absent_stream :
  emitted (register_viewer "c2" 10 "s1" (initial_state 0 {["c2"]}))
  = [mkEmit (ToSocket "c2") (stream_unavailable "s1" 10)].
Proof. reflexivity. Qed.

(** When the broadcaster of a watched stream disconnects, its viewer is
    told 'stream-ended' and the stream leaves the registry. *)
Example broadcaster_disconnects :
  let r := on_disconnect "c1" 30 one_viewer in
  emitted r
  = [mkEmit (ToSocket "c2")
       (stream_ended "s1" 30 (Some "broadcaster-disconnected"))]
  ∧ broadcasters (state r) !! "s1" = None
  ∧ viewers (state r) !! "s1" = None
  ∧ socketRoles (state r) !! "c1" = None.
Proof. vm_compute. done. Qed.

(** ** Concrete runs of the further properties *)

(** [eviction_is_minimal]: of three two-byte packets under a ceiling of 5
    the loop keeps two; all three together exceed the ceiling. *)
Lemma eviction_is_minimal_witness :
  two_byte_packets `suffix_of` two_byte_packets
  ∧ (length (evict_oldest small_config two_byte_packets)
     < length two_byte_packets)%nat
  ∧ MAX_BUFFER_SIZE small_config < buffered_bytes two_byte_packets.
Proof.
  assert (Hsuffix : two_byte_packets `suffix_of` two_byte_packets)
    by (by exists []).
  assert (Hlonger : (length (evict_oldest small_config two_byte_packets)
                     < length two_byte_packets)%nat) by (vm_compute; lia).
  exact (conj Hsuffix (conj Hlonger
           (eviction_is_minimal small_config two_byte_packets two_byte_packets
              Hsuffix Hlonger))).
Defined.

(** [newest_packet_retained]: a 3-byte datagram under a ceiling of 5. *)
Lemma newest_packet_retained_witness :
  let d := mkDatagram [x01; x02; x03] "192.0.2.1" 5000 10 in
  Z.of_nat (length (msg d)) ≤ MAX_BUFFER_SIZE small_config
  ∧ last (videoBuffer (state (on_udp_message small_config constant_digest d
                                (initial_state 0 ∅))))
    = Some (packet_of constant_digest d).
Proof.
  intros d.
  assert (Hfits : Z.of_nat (length (msg d)) ≤ MAX_BUFFER_SIZE small_config)
    by (vm_compute; discriminate).
  exact (conj Hfits
           (newest_packet_retained small_config constant_digest d
              (initial_state 0 ∅) Hfits)).
Defined.

(** [ingestion_without_eviction]: two 2-byte datagrams under a ceiling
    of 5. *)
Lemma ingestion_without_eviction_witness :
  let datagrams :=
    [mkDatagram [x01; x02] "192.0.2.1" 5000 10;
     mkDatagram [x03; x04] "192.0.2.1" 5000 20] in
  let s := initial_state 0 ∅ in
  buffered_bytes (videoBuffer s) + datagram_bytes datagrams
    ≤ MAX_BUFFER_SIZE small_config
  ∧ videoBuffer (state (run_each (on_udp_message small_config constant_digest)
                          datagrams s))
    = (videoBuffer s ++ (packet_of constant_digest <$> datagrams))%list.
Proof.
  intros datagrams s.
  assert (Hfits : buffered_bytes (videoBuffer s) + datagram_bytes datagrams
                  ≤ MAX_BUFFER_SIZE small_config) by (vm_compute; discriminate).
  exact (conj Hfits
           (ingestion_without_eviction small_config constant_digest datagrams
              s Hfits)).
Defined.

(** [packet_count_bound]: four 2-byte datagrams under a ceiling of 5. *)
Lemma packet_count_bound_witness :
  let d t := mkDatagram [x01; x02] "192.0.2.1" 5000 t in
  let datagrams := [d 10; d 20; d 30; d 40] in
  0 ≤ MAX_BUFFER_SIZE small_config
  ∧ Forall (λ d, msg d ≠ []) datagrams
  ∧ Z.of_nat (length (videoBuffer
                        (state (run_each
                                  (on_udp_message small_config constant_digest)
                                  datagrams (initial_state 0 ∅)))))
    ≤ MAX_BUFFER_SIZE small_config.
Proof.
  intros d datagrams.
  assert (Hmax : 0 ≤ MAX_BUFFER_SIZE small_config) by (vm_compute; discriminate).
  assert (Hfull : Forall (λ d, msg d ≠ []) datagrams)
    by (repeat constructor; discriminate).
  exact (conj Hmax (conj Hfull
           (packet_count_bound small_config constant_digest datagrams 0 ∅
              Hmax Hfull))).
Defined.

(** [empty_datagrams_accumulate]: seven empty datagrams under a ceiling
    of 5 bytes are all held. *)
Lemma empty_datagrams_accumulate_witness :
  let d t := mkDatagram [] "192.0.2.1" 5000 t in
  let datagrams := [d 10; d 20; d 30; d 40; d 50; d 60; d 70] in
  let s := initial_state 0 ∅ in
  buffered_bytes (videoBuffer s) ≤ MAX_BUFFER_SIZE small_config
  ∧ Forall (λ d, msg d = []) datagrams
  ∧ length (videoBuffer (state (run_each
                                  (on_udp_message small_config constant_digest)
                                  datagrams s)))
    = (length (videoBuffer s) + length datagrams)%nat.
Proof.
  intros d datagrams s.
  assert (Hfits : buffered_bytes (videoBuffer s) ≤ MAX_BUFFER_SIZE small_config)
    by (vm_compute; discriminate).
  assert (Hempty : Forall (λ d, msg d = []) datagrams)
    by (repeat constructor).
  exact (conj Hfits (conj Hempty
           (empty_datagrams_accumulate small_config constant_digest datagrams s
              Hfits Hempty))).
Defined.

(** [data_rate_is_bytes_since_update]: 3 bytes at 100 ms, 2 bytes at 500 ms
    and 1 byte at 1000 ms after the last update publish a rate of 6. *)
Lemma data_rate_is_bytes_since_update_witness :
  let datagrams :=
    [mkDatagram [x01; x02; x03] "192.0.2.1" 5000 100;
     mkDatagram [x04; x05] "192.0.2.1" 5000 500] in
  let d := mkDatagram [x06] "192.0.2.1" 5000 1000 in
  let s := initial_state 0 ∅ in
  let s1 :=
    state (run_each (on_udp_message small_config constant_digest) datagrams s) in
  let r := on_udp_message small_config constant_digest d s1 in
  Forall (λ d', received d' - lastDataRateUpdate s < 1000) datagrams
  ∧ 1000 ≤ received d - lastDataRateUpdate s
  ∧ currentDataRate (state r) = 6
  ∧ bytesReceivedLastSecond (state r) = 0
  ∧ emitted r = [mkEmit ToAll (udp_data 1000 1 "192.0.2.1" 5000 6)].
Proof.
  intros datagrams d s s1 r.
  assert (Hwithin : Forall (λ d', received d' - lastDataRateUpdate s < 1000)
                      datagrams) by (repeat constructor).
  assert (Hlate : 1000 ≤ received d - lastDataRateUpdate s)
    by (vm_compute; discriminate).
  destruct (data_rate_is_bytes_since_update small_config constant_digest
              datagrams d s Hwithin Hlate) as (_ & Hrate & Hzero & _ & Hsent).
  exact (conj Hwithin (conj Hlate (conj Hrate (conj Hzero Hsent)))).
Defined.

(** [chunk_count_cap]: start index -2 and chunk size 1 on three packets. *)
Lemma chunk_count_cap_witness :
  let requestInfo := mkRequest (Some (-2)) (Some 1) in
  0 ≤ or_default (chunkSize requestInfo) 10
  ∧ Z.of_nat (length (chunks (video_data_reply constant_base64 three_packets
                                0 40 requestInfo)))
    ≤ Z.min (or_default (chunkSize requestInfo) 10) 20.
Proof.
  intros requestInfo.
  assert (Hsize : 0 ≤ or_default (chunkSize requestInfo) 10)
    by (vm_compute; discriminate).
  exact (conj Hsize
           (chunk_count_cap constant_base64 three_packets 0 40 requestInfo
              Hsize)).
Defined.

(** [negative_chunk_size_uncapped]: chunk size -1 on three packets returns
    the first two. *)
Lemma negative_chunk_size_uncapped_witness :
  or_default (Some 0) 0 = 0
  ∧ - Z.of_nat (length three_packets) < -1 < 0
  ∧ chunks (video_data_reply constant_base64 three_packets 0 40
              (mkRequest (Some 0) (Some (-1))))
    = encode_chunk constant_base64
        <$> take (Z.to_nat (Z.of_nat (length three_packets) + -1)) three_packets.
Proof.
  assert (Hstart : or_default (Some 0) 0 = 0) by reflexivity.
  assert (Hc : - Z.of_nat (length three_packets) < -1 < 0) by (cbn; lia).
  exact (conj Hstart (conj Hc
           (negative_chunk_size_uncapped constant_base64 three_packets 0 40
              (-1) (Some 0) Hstart Hc))).
Defined.

(** [window_past_the_end]: start index 3 on three packets. *)
Lemma window_past_the_end_witness :
  let requestInfo := mkRequest (Some 3) (Some 10) in
  let p := mkPacket "cccccccc" [x03] 30 1 in
  let reply := video_data_reply constant_base64 three_packets 0 40 requestInfo in
  last three_packets = Some p
  ∧ Z.of_nat (length three_packets) - 1 ≤ or_default (startIndex requestInfo) 0
  ∧ 0 < or_default (chunkSize requestInfo) 10
  ∧ chunks reply = [encode_chunk constant_base64 p]
  ∧ nextIndex reply = Z.of_nat (length three_packets)
  ∧ hasMore reply = false.
Proof.
  intros requestInfo p reply.
  assert (Hlast : last three_packets = Some p) by reflexivity.
  assert (Hstart : Z.of_nat (length three_packets) - 1
                   ≤ or_default (startIndex requestInfo) 0)
    by (vm_compute; discriminate).
  assert (Hsize : 0 < or_default (chunkSize requestInfo) 10) by reflexivity.
  exact (conj Hlast (conj Hstart (conj Hsize
           (window_past_the_end constant_base64 three_packets 0 40 requestInfo
              p Hlast Hstart Hsize)))).
Defined.

(** [negative_start_counts_from_end]: start index -1 on three packets. *)
Lemma negative_start_counts_from_end_witness :
  let requestInfo := mkRequest (Some (-1)) (Some 10) in
  let reply := video_data_reply constant_base64 three_packets 0 40 requestInfo in
  three_packets ≠ []
  ∧ or_default (startIndex requestInfo) 0 < 0
  ∧ chunks reply
    = encode_chunk constant_base64
        <$> take (length (chunks reply)) (drop 2 three_packets)
  ∧ nextIndex reply = -1 + Z.of_nat (length (chunks reply))
  ∧ nextIndex reply < Z.of_nat (length (chunks reply)).
Proof.
  intros requestInfo reply.
  assert (Hbuf : three_packets ≠ []) by discriminate.
  assert (Hstart : or_default (startIndex requestInfo) 0 < 0) by reflexivity.
  exact (conj Hbuf (conj Hstart
           (negative_start_counts_from_end constant_base64 three_packets 0 40
              requestInfo Hbuf Hstart))).
Defined.


(** [rate_limited_event_has_no_effect]: a registration by a socket that has
    sent five events in the running second. *)
Lemma rate_limited_event_has_no_effect_witness :
  let e := register_broadcaster_event "s1" in
  let w := mkWindow 5 0 in
  socketRateLimits busy_socket !! "c1" = Some w
  ∧ 500 - window_start w ≤ 1000
  ∧ event_limit e ≤ count w
  ∧ handle small_config constant_digest constant_base64
      (socket_sends "c1" 500 e) busy_socket
    = mkResult tt busy_socket [].
Proof.
  intros e w.
  assert (Hw : socketRateLimits busy_socket !! "c1" = Some w) by reflexivity.
  assert (Hopen : 500 - window_start w ≤ 1000) by (vm_compute; discriminate).
  assert (Hfull : event_limit e ≤ count w) by (vm_compute; discriminate).
  exact (conj Hw (conj Hopen (conj Hfull
           (rate_limited_event_has_no_effect small_config constant_digest
              constant_base64 "c1" 500 e busy_socket w Hw Hopen Hfull)))).
Defined.

(** [signalling_spends_registration_budget]: five 'webrtc-signal' events
    within 400 ms, then a registration at 900 ms. *)
Lemma signalling_spends_registration_budget_witness :
  let signal := webrtc_signal_event offer_to_c2 in
  let signals := [(100, signal); (200, signal); (300, signal); (400, signal)] in
  let e := register_broadcaster_event "s1" in
  let s := initial_state 0 {["c1"; "c2"]} in
  let s1 :=
    state (run_each
             (λ te, handle small_config constant_digest constant_base64
                      (socket_sends "c1" te.1 te.2))
             ((0, signal) :: signals) s) in
  socketRateLimits s !! "c1" = None
  ∧ Forall (λ te, te.1 - 0 ≤ 1000 ∧ event_limit te.2 = 30) signals
  ∧ handle small_config constant_digest constant_base64
      (socket_sends "c1" 900 e) s1
    = mkResult tt s1 [].
Proof.
  intros signal signals e s s1.
  assert (Hnone : socketRateLimits s !! "c1" = None) by reflexivity.
  assert (Hsignals : Forall (λ te, te.1 - 0 ≤ 1000 ∧ event_limit te.2 = 30)
                       signals)
    by (repeat constructor; vm_compute; discriminate).
  assert (Hmany : (4 ≤ length signals)%nat) by (cbn; lia).
  assert (Hnow : 900 - 0 ≤ 1000) by lia.
  exact (conj Hnone (conj Hsignals
           (signalling_spends_registration_budget small_config constant_digest
              constant_base64 "c1" 0 signal signals 900 e s Hnone eq_refl
              Hsignals Hmany eq_refl Hnow))).
Defined.

(** [buffer_changes_only_on_datagrams]: the disconnection of the
    broadcaster of a watched stream. *)
Lemma buffer_changes_only_on_datagrams_witness :
  let e := socket_disconnects "c1" 30 in
  let s' :=
    state (handle small_config constant_digest constant_base64 e one_viewer) in
  (∀ d, e ≠ datagram_arrives d)
  ∧ videoBuffer s' = videoBuffer one_viewer
  ∧ bytesReceivedLastSecond s' = bytesReceivedLastSecond one_viewer
  ∧ lastDataRateUpdate s' = lastDataRateUpdate one_viewer
  ∧ currentDataRate s' = currentDataRate one_viewer.
Proof.
  intros e s'.
  assert (Hother : ∀ d, e ≠ datagram_arrives d) by discriminate.
  exact (conj Hother
           (buffer_changes_only_on_datagrams small_config constant_digest
              constant_base64 e one_viewer Hother)).
Defined.


(** [viewer_round_trip]: socket "c2" registers for stream "s1" and
    unregisters. *)
Lemma viewer_round_trip_witness :
  let s := one_stream in
  let s2 := state (unregister_viewer "c2" 30 "s1"
                     (state (register_viewer "c2" 20 "s1" s))) in
  is_Some (broadcasters s !! "s1")
  ∧ viewers s !! "s1" = Some []
  ∧ ("c2" ∉ ([] : list string))
  ∧ broadcasters s2 = broadcasters s
  ∧ viewers s2 = viewers s
  ∧ socketRoles s2 = delete "c2" (socketRoles s).
Proof.
  intros s s2.
  assert (Hstream : is_Some (broadcasters s !! "s1"))
    by (exists "c1"; reflexivity).
  assert (Hset : viewers s !! "s1" = Some []) by reflexivity.
  assert (Hnew : "c2" ∉ ([] : list string)) by apply not_elem_of_nil.
  exact (conj Hstream (conj Hset (conj Hnew
           (viewer_round_trip "c2" 20 30 "s1" s [] Hstream Hset Hnew)))).
Defined.

(** [broadcaster_round_trip]: socket "c1" registers stream "s1" in an
    empty registry and unregisters it. *)
Lemma broadcaster_round_trip_witness :
  let s := initial_state 0 {["c1"]} in
  let s2 := state (unregister_broadcaster "c1" 20 "s1"
                     (state (register_broadcaster "c1" 10 "s1" s))) in
  broadcasters s !! "s1" = None
  ∧ viewers s !! "s1" = None
  ∧ broadcasters s2 = broadcasters s
  ∧ viewers s2 = viewers s
  ∧ socketRoles s2 = delete "c1" (socketRoles s).
Proof.
  intros s s2.
  assert (Hb : broadcasters s !! "s1" = None) by reflexivity.
  assert (Hv : viewers s !! "s1" = None) by reflexivity.
  exact (conj Hb (conj Hv (broadcaster_round_trip "c1" 10 20 "s1" s Hb Hv))).
Defined.

(** [stream_end_notifies_connected_viewers]: stream "s1" of socket "c1",
    watched by "c2", ends by unregistration and by disconnection. *)
Lemma stream_end_notifies_connected_viewers_witness :
  let s := one_viewer in
  let r := unregister_broadcaster "c1" 30 "s1" s in
  let r' := on_disconnect "c1" 30 s in
  broadcasters s !! "s1" = Some "c1"
  ∧ viewers s !! "s1" = Some ["c2"]
  ∧ socketRoles s !! "c1" = Some (mkRole broadcaster "s1")
  ∧ emitted r = [mkEmit (ToSocket "c2") (stream_ended "s1" 30 None)]
  ∧ emitted r'
    = [mkEmit (ToSocket "c2")
         (stream_ended "s1" 30 (Some "broadcaster-disconnected"))]
  ∧ viewers (state r') = delete "s1" (viewers s).
Proof.
  intros s r r'.
  assert (Hb : broadcasters s !! "s1" = Some "c1") by reflexivity.
  assert (Hv : viewers s !! "s1" = Some ["c2"]) by reflexivity.
  assert (Hrole : socketRoles s !! "c1" = Some (mkRole broadcaster "s1"))
    by reflexivity.
  destruct (stream_end_notifies_connected_viewers "c1" 30 "s1" s ["c2"] Hb Hv)
    as [(Hsent & _) Hdisconnect].
  destruct (Hdisconnect Hrole) as (Hsent' & _ & Hviewers).
  exact (conj Hb (conj Hv (conj Hrole (conj Hsent (conj Hsent' Hviewers))))).
Defined.

(** [superseded_broadcaster_disconnects]: socket "c1", superseded by "c2"
    as the source of "s1", disconnects. *)
Lemma superseded_broadcaster_disconnects_witness :
  let s := superseded_source in
  socketRoles s !! "c1" = Some (mkRole broadcaster "s1")
  ∧ broadcasters s !! "s1" ≠ Some "c1"
  ∧ on_disconnect "c1" 30 s
    = mkResult tt
        (set_socketRoles (delete "c1") (set_socketRateLimits (delete "c1") s))
        [].
Proof.
  intros s.
  assert (Hrole : socketRoles s !! "c1" = Some (mkRole broadcaster "s1"))
    by reflexivity.
  assert (Hstale : broadcasters s !! "s1" ≠ Some "c1") by discriminate.
  exact (conj Hrole (conj Hstale
           (superseded_broadcaster_disconnects "c1" 30 "s1" s Hrole Hstale))).
Defined.

(** [disconnect_leaves_earlier_viewer_entry]: socket "c3" registers for
    "s1", then for "s2", and disconnects. *)
Lemma disconnect_leaves_earlier_viewer_entry_witness :
  let s := two_streams in
  let s3 :=
    state ((register_viewer "c3" 30 "s1" ;;
            register_viewer "c3" 40 "s2" ;;
            on_disconnect "c3" 50) s) in
  "s1" ≠ "s2"
  ∧ is_Some (broadcasters s !! "s1")
  ∧ is_Some (broadcasters s !! "s2")
  ∧ (∃ streamViewers,
       viewers s3 !! "s1" = Some streamViewers ∧ "c3" ∈ streamViewers)
  ∧ socketRoles s3 !! "c3" = None.
Proof.
  intros s s3.
  assert (Hne : "s1" ≠ "s2") by discriminate.
  assert (H1 : is_Some (broadcasters s !! "s1")) by (exists "c1"; reflexivity).
  assert (H2 : is_Some (broadcasters s !! "s2")) by (exists "c2"; reflexivity).
  exact (conj Hne (conj H1 (conj H2
           (disconnect_leaves_earlier_viewer_entry "c3" 30 40 50 "s1" "s2" s
              Hne H1 H2)))).
Defined.

(** [disconnect_leaves_earlier_stream]: socket "c1" registers "s1", then
    "s2", and disconnects. *)
Lemma disconnect_leaves_earlier_stream_witness :
  let s3 :=
    state ((register_broadcaster "c1" 10 "s1" ;;
            register_broadcaster "c1" 20 "s2" ;;
            on_disconnect "c1" 30) (initial_state 0 {["c1"]})) in
  "s1" ≠ "s2"
  ∧ broadcasters s3 !! "s1" = Some "c1"
  ∧ broadcasters s3 !! "s2" = None
  ∧ socketRoles s3 !! "c1" = None.
Proof.
  intros s3.
  assert (Hne : "s1" ≠ "s2") by discriminate.
  exact (conj Hne
           (disconnect_leaves_earlier_stream "c1" 10 20 30 "s1" "s2"
              (initial_state 0 {["c1"]}) Hne)).
Defined.


(** [directed_relay_is_authentic]: the message a 'broadcaster-signal' of
    socket "c1" for "c2" produces. *)
Lemma directed_relay_is_authentic_witness :
  let s := initial_state 0 {["c1"; "c2"]} in
  let m :=
    mkEmit (ToSocket "c2")
      (viewer_signal
         (<["timestamp" := VNum 50]> (<["broadcasterId" := VStr "c1"]> offer_to_c2))) in
  m ∈ emitted (broadcaster_signal_relay "c1" 50 offer_to_c2 s)
  ∧ ∃ targetId body,
      m = mkEmit (ToSocket targetId) (viewer_signal body)
      ∧ offer_to_c2 !! "viewerId" = Some (VStr targetId)
      ∧ targetId ∈ sockets s
      ∧ body !! "broadcasterId" = Some (VStr "c1").
Proof.
  intros s m.
  assert (Hm : m ∈ emitted (broadcaster_signal_relay "c1" 50 offer_to_c2 s))
    by (vm_compute; constructor).
  destruct (directed_relay_is_authentic "c1" 50 offer_to_c2 s m) as [Hsent _].
  exact (conj Hm (Hsent Hm)).
Defined.

(** [window_boundary_burst] for limit 2: events at 0, 1000, 1001 and
    1001 ms all pass both gates. *)
Lemma window_boundary_burst_witness :
  let s := initial_state 0 ∅ in
  1 ≤ 2
  ∧ socketRateLimits s !! "c1" = None
  ∧ clientRequests s !! "192.0.2.1" = None
  ∧ boundary_burst 1000 2 0 = [0; 1000; 1001; 1001]
  ∧ value (decisions (rateLimitSocketEvent "c1" 2) (boundary_burst 1000 2 0) s)
    = [false; false; false; false]
  ∧ value (decisions (rate_limit_middleware small_config "192.0.2.1")
             (boundary_burst (rateLimitInterval small_config) 2 0) s)
    = [next; next; next; next].
Proof.
  intros s.
  assert (Hlimit : 1 ≤ 2) by lia.
  assert (Hsocket : socketRateLimits s !! "c1" = None) by reflexivity.
  assert (Hip : clientRequests s !! "192.0.2.1" = None) by reflexivity.
  assert (Hinterval : 0 ≤ rateLimitInterval small_config)
    by (vm_compute; discriminate).
  destruct (window_boundary_burst small_config 2 0 s Hlimit) as [Hs Hh].
  exact (conj Hlimit (conj Hsocket (conj Hip (conj eq_refl
           (conj (Hs "c1" Hsocket)
              (Hh eq_refl Hinterval "192.0.2.1" Hip)))))).
Defined.
